(** * Attendance_Tracker: the audio handler's per-person state machine

    A shallow embedding of [audio_handler.py] (class [AudioHandler]) and the
    properties its design document states about it.

    Conventions of the embedding.
    - Clock readings ([time.time()]) are inputs of the operations that take
      them; a timestamp is an integer number of milliseconds, so the
      constants 2.0 s, 5.0 s and 300.0 s read 2000, 5000 and 300000.
    - [self.people] is a [gmap string PersonRecord].  A [PersonRecord] is a
      mutable object shared with that dictionary: every write to [person]
      in the source is a write to [self.people[person_id]], which the
      embedding performs by storing the updated record back under its key.
    - [self.audio_queue] (a deque used with [append] and [popleft]) is a
      list whose head is the left end.
    - Every block run under [self.data_lock] is one atomic step; the test
      of [self.session_active] that [process_person] makes before taking
      the lock belongs to the same step.  The playback thread is split at
      the point where it leaves [self.audio_queue_lock]: one step polls
      and pops, a later step receives the backend's outcome and sets the
      cooldown, and any step of another thread may come in between.  The
      condition of its [while] is read where the source reads it: right
      after an iteration ends, before the sleep and the poll of the next
      one. *)

From stdpp Require Import gmap strings list fin_maps.
From Stdlib Require Import ZArith Lia.

Local Open Scope Z_scope.

(** ** Configuration constants *)

Definition AUDIO_COOLDOWN_GLOBAL : Z := 2000.
Definition AUDIO_COOLDOWN_PER_PERSON : Z := 5000.
Definition SESSION_TIMEOUT : Z := 300000.
Definition REAPPEAR_THRESHOLD : Z := 2000.

(** ** State machine definition *)

Inductive PersonState : Type := NEW | MARKING | MARKED | IGNORED.

Global Instance PersonState_eq_dec : EqDecision PersonState.
Proof. solve_decision. Defined.

Definition PersonState_code (s : PersonState) : nat :=
  match s with NEW => 0 | MARKING => 1 | MARKED => 2 | IGNORED => 3 end%nat.

Definition PersonState_of_code (n : nat) : PersonState :=
  match n with
  | O => NEW
  | S O => MARKING
  | S (S O) => MARKED
  | _ => IGNORED
  end.

Global Instance PersonState_countable : Countable PersonState.
Proof.
  refine (inj_countable' PersonState_code PersonState_of_code _).
  intros []; reflexivity.
Defined.

(** ** Data structures *)

Record PersonRecord : Type := mkPersonRecord {
  person_id : string;
  name : string;
  state : PersonState;
  last_audio_time : Z;
  last_seen_time : Z;
  audio_lock_until : Z;
  has_triggered_ignored_audio : bool
}.

Definition set_state (p : PersonRecord) (s : PersonState) : PersonRecord :=
  mkPersonRecord (person_id p) (name p) s (last_audio_time p)
    (last_seen_time p) (audio_lock_until p) (has_triggered_ignored_audio p).

Definition set_last_seen_time (p : PersonRecord) (t : Z) : PersonRecord :=
  mkPersonRecord (person_id p) (name p) (state p) (last_audio_time p)
    t (audio_lock_until p) (has_triggered_ignored_audio p).

Definition set_audio_lock_until (p : PersonRecord) (t : Z) : PersonRecord :=
  mkPersonRecord (person_id p) (name p) (state p) (last_audio_time p)
    (last_seen_time p) t (has_triggered_ignored_audio p).

Definition set_has_triggered_ignored_audio (p : PersonRecord) (b : bool)
  : PersonRecord :=
  mkPersonRecord (person_id p) (name p) (state p) (last_audio_time p)
    (last_seen_time p) (audio_lock_until p) b.

(** An item of the audio queue: [(audio_text, current_time)]. *)
Definition AudioItem : Type := (string * Z)%type.

Record AudioHandler : Type := mkAudioHandler {
  session_active : bool;
  global_cooldown_until : Z;
  people : gmap string PersonRecord;
  audio_queue : list AudioItem;
  audio_thread_running : bool
}.

Definition set_people (h : AudioHandler) (m : gmap string PersonRecord)
  : AudioHandler :=
  mkAudioHandler (session_active h) (global_cooldown_until h) m
    (audio_queue h) (audio_thread_running h).

Definition set_audio_queue (h : AudioHandler) (q : list AudioItem)
  : AudioHandler :=
  mkAudioHandler (session_active h) (global_cooldown_until h) (people h)
    q (audio_thread_running h).

Definition set_global_cooldown_until (h : AudioHandler) (t : Z)
  : AudioHandler :=
  mkAudioHandler (session_active h) t (people h)
    (audio_queue h) (audio_thread_running h).

Definition set_audio_thread_running (h : AudioHandler) (b : bool)
  : AudioHandler :=
  mkAudioHandler (session_active h) (global_cooldown_until h) (people h)
    (audio_queue h) b.

(** The handler as [__init__] leaves it. *)
Definition __init__ : AudioHandler :=
  mkAudioHandler false 0 ∅ [] true.

(** ** Session management *)

Definition start_session (h : AudioHandler) : AudioHandler :=
  mkAudioHandler true 0 ∅ [] (audio_thread_running h).

Definition end_session (h : AudioHandler) : AudioHandler :=
  mkAudioHandler false 0 ∅ [] (audio_thread_running h).

(** ** State transition logic *)

Definition _apply_state_transitions (person : PersonRecord)
    (attendance_marked is_reappearance : bool) : PersonRecord :=
  match state person with
  | NEW => set_state person MARKING
  | MARKING => if attendance_marked then set_state person MARKED else person
  | MARKED => if is_reappearance then set_state person IGNORED else person
  | IGNORED => person
  end.

(** The dictionary [audio_messages] built on every call of
    [_trigger_audio_for_transition]; the f-strings read [person.name]. *)
Definition audio_messages (person : PersonRecord)
  : gmap (PersonState * PersonState) string :=
  <[ (NEW, MARKING) := "Marking attendance" ]>
  (<[ (MARKING, MARKED) := "Greetings " +:+ name person ]>
  (<[ (MARKED, IGNORED) :=
        name person +:+
        ", your attendance is already marked. Only once per session." ]>
   ∅)).

Definition _queue_audio (h : AudioHandler) (audio_text : string)
    (current_time : Z) : AudioHandler :=
  set_audio_queue h (audio_queue h ++ [(audio_text, current_time)]).

(** Returns the handler (whose queue may have grown) and the record as
    the call leaves it. *)
Definition _trigger_audio_for_transition (h : AudioHandler)
    (person : PersonRecord) (previous_state : PersonState)
    (current_time : Z) : AudioHandler * PersonRecord :=
  let transition := (previous_state, state person) in
  match audio_messages person !! transition with
  | Some audio_text =>
      if bool_decide (state person = IGNORED)
         && has_triggered_ignored_audio person
      then (h, person)
      else
        let person :=
          if bool_decide (state person = IGNORED)
          then set_has_triggered_ignored_audio person true
          else person in
        let person :=
          set_audio_lock_until person
            (current_time + AUDIO_COOLDOWN_PER_PERSON) in
        (_queue_audio h audio_text current_time, person)
  | None => (h, person)
  end.

(** ** Utility methods *)

Definition _get_or_create_person (h : AudioHandler)
    (pid person_name : string) (current_time : Z)
  : AudioHandler * PersonRecord :=
  match people h !! pid with
  | Some person => (h, person)
  | None =>
      let person :=
        mkPersonRecord pid person_name NEW 0 current_time 0 false in
      (set_people h (<[ pid := person ]> (people h)), person)
  end.

(** [self.people[pid]] now holds [person]. *)
Definition store_person (h : AudioHandler) (pid : string)
    (person : PersonRecord) : AudioHandler :=
  set_people h (<[ pid := person ]> (people h)).

(** ** Core processing method *)

Definition process_person (h : AudioHandler) (pid person_name : string)
    (is_recognized attendance_marked : bool) (current_time : Z)
  : AudioHandler :=
  if negb (session_active h) then h
  else if negb is_recognized then h
  else
    let '(h, person) := _get_or_create_person h pid person_name current_time in
    let time_since_last_seen := current_time - last_seen_time person in
    let is_reappearance :=
      bool_decide (REAPPEAR_THRESHOLD < time_since_last_seen) in
    let person := set_last_seen_time person current_time in
    if bool_decide (current_time < audio_lock_until person)
    then store_person h pid person
    else
      let previous_state := state person in
      let person :=
        _apply_state_transitions person attendance_marked is_reappearance in
      if bool_decide (state person ≠ previous_state)
      then
        let '(h, person) :=
          _trigger_audio_for_transition h person previous_state current_time in
        store_person h pid person
      else store_person h pid person.

(** ** Audio queue management: the playback thread *)

(** What a call of [self.audio_callback] does: it returns, or it raises an
    instance of [Exception] (the class the handler names). *)
Inductive BackendOutcome : Type :=
  | Returned
  | Raised (e : string).

(** How a statement completes: normally, or abruptly with an exception
    travelling up the stack. *)
Inductive Completion : Type :=
  | Normal
  | Abrupt (e : string).

Definition call_audio_callback (r : BackendOutcome) : Completion :=
  match r with
  | Returned => Normal
  | Raised e => Abrupt e
  end.

(** [try: self.audio_callback(audio_text)
     except Exception as e: print(...)] *)
Definition play_audio (r : BackendOutcome) : Completion :=
  match call_audio_callback r with
  | Normal => Normal
  | Abrupt e => Normal
  end.

(** The part of one iteration of [_process_audio_queue] that runs under
    [self.audio_queue_lock], entered when the loop condition holds.
    [Some audio_text] is the item the iteration goes on to play;
    [None] is a [continue]. *)
Definition poll_audio_queue (h : AudioHandler) (current_time : Z)
  : AudioHandler * option string :=
  match audio_queue h with
  | [] => (h, None)
  | (audio_text, queue_time) :: rest =>
      if bool_decide (current_time < global_cooldown_until h)
      then (h, None)
      else (set_audio_queue h rest, Some audio_text)
  end.

(** The end of the iteration: [self.global_cooldown_until =
    time.time() + AUDIO_COOLDOWN_GLOBAL]. *)
Definition update_global_cooldown (h : AudioHandler) (current_time : Z)
  : AudioHandler :=
  set_global_cooldown_until h (current_time + AUDIO_COOLDOWN_GLOBAL).

(** One whole iteration of the loop of [_process_audio_queue], run
    without another thread in between: [current_time] is the clock read
    under the queue lock, [end_time] the clock read for the cooldown.
    The second component tells whether the iteration completes or an
    exception leaves the loop. *)
Definition _process_audio_queue (h : AudioHandler) (current_time : Z)
    (r : BackendOutcome) (end_time : Z) : AudioHandler * Completion :=
  if negb (audio_thread_running h) then (h, Normal)
  else
    match poll_audio_queue h current_time with
    | (h, None) => (h, Normal)
    | (h, Some audio_text) =>
        match play_audio r with
        | Normal => (update_global_cooldown h end_time, Normal)
        | Abrupt e => (h, Abrupt e)
        end
    end.

(** ** Session cleanup *)

(** The list [to_remove] of one wake-up of [_session_cleanup_loop]. *)
Definition cleanup_to_remove (h : AudioHandler) (current_time : Z)
  : list string :=
  let cutoff_time := current_time - SESSION_TIMEOUT in
  (filter (λ kv : string * PersonRecord, last_seen_time kv.2 < cutoff_time)
     (map_to_list (people h))).*1.

(** One wake-up of [_session_cleanup_loop]: the body of its [while True]
    after the sleep.  The keys are deleted one by one; the order does not
    matter. *)
Definition _session_cleanup_loop (h : AudioHandler) (current_time : Z)
  : AudioHandler :=
  if negb (session_active h) then h
  else
    let to_remove := cleanup_to_remove h current_time in
    set_people h (foldr delete (people h) to_remove).

(** ** The handler and its threads as one system *)

(** Where the playback thread stands between two steps: in an iteration
    whose loop test has passed, sleeping before the section under the
    queue lock; between [popleft] and the cooldown update, with the text
    it is playing; ended by an exception that left the loop; or returned
    because the loop test read False. *)
Inductive WorkerPoint : Type :=
  | Polling
  | Playing (audio_text : string)
  | Crashed (e : string)
  | Stopped.

(** The test [while self.audio_thread_running], made as soon as an
    iteration ends (by [continue] or after the cooldown update). *)
Definition loop_test (h : AudioHandler) : WorkerPoint :=
  if audio_thread_running h then Polling else Stopped.

Record System : Type := mkSystem {
  handler : AudioHandler;
  worker : WorkerPoint
}.

Inductive Event : Type :=
  | StartSession
  | EndSession
  | StopWorker
  | ProcessPerson (pid person_name : string)
      (is_recognized attendance_marked : bool) (current_time : Z)
  | Cleanup (current_time : Z)
  | WorkerPoll (current_time : Z)
  | WorkerPlayed (r : BackendOutcome) (current_time : Z).

(** [StopWorker] is the assignment [self.audio_thread_running = False] of
    [shutdown], which then calls [end_session].  An event the playback
    thread cannot take where it stands leaves the system as it is.  A
    poll belongs to an iteration that has passed the loop test, so it
    does not read the flag again; the step that ends an iteration reads
    it for the next one. *)
Definition step (s : System) (ev : Event) : System :=
  match ev with
  | StartSession => mkSystem (start_session (handler s)) (worker s)
  | EndSession => mkSystem (end_session (handler s)) (worker s)
  | StopWorker =>
      mkSystem (set_audio_thread_running (handler s) false) (worker s)
  | ProcessPerson pid person_name is_recognized attendance_marked now =>
      mkSystem
        (process_person (handler s) pid person_name
           is_recognized attendance_marked now)
        (worker s)
  | Cleanup now =>
      mkSystem (_session_cleanup_loop (handler s) now) (worker s)
  | WorkerPoll now =>
      match worker s with
      | Polling =>
          match poll_audio_queue (handler s) now with
          | (h, Some audio_text) => mkSystem h (Playing audio_text)
          | (h, None) => mkSystem h (loop_test h)
          end
      | _ => s
      end
  | WorkerPlayed r now =>
      match worker s with
      | Playing audio_text =>
          match play_audio r with
          | Normal =>
              let h := update_global_cooldown (handler s) now in
              mkSystem h (loop_test h)
          | Abrupt e => mkSystem (handler s) (Crashed e)
          end
      | _ => s
      end
  end.

Definition run (s : System) (evs : list Event) : System :=
  fold_left step evs s.

(** [__init__] sets [audio_thread_running] and starts the playback
    thread, which enters its first iteration. *)
Definition initial : System := mkSystem __init__ Polling.

(** [shutdown()] seen from the other threads. *)
Definition shutdown : list Event := [StopWorker; EndSession].

(** ** Observations on runs *)

(** No [start_session] / [end_session] among the events. *)
Definition session_event (ev : Event) : bool :=
  match ev with
  | StartSession | EndSession => true
  | _ => false
  end.

Definition in_session (evs : list Event) : bool :=
  forallb (λ ev, negb (session_event ev)) evs.

Definition is_process_person (ev : Event) : bool :=
  match ev with
  | ProcessPerson _ _ _ _ _ => true
  | _ => false
  end.

(** What a call of [process_person] appended to the queue. *)
Definition enqueued_by (h : AudioHandler) (pid person_name : string)
    (is_recognized attendance_marked : bool) (current_time : Z)
  : list AudioItem :=
  drop (length (audio_queue h))
    (audio_queue
       (process_person h pid person_name
          is_recognized attendance_marked current_time)).

Definition already_marked_text (person_name : string) : string :=
  person_name +:+
  ", your attendance is already marked. Only once per session.".

(** Does this event enqueue the "already marked" announcement of [pid]?
    It does when it is a [process_person] call for [pid] that appends an
    item carrying that text for the record's name. *)
Definition announces_already_marked (pid : string) (s : System) (ev : Event)
  : bool :=
  match ev with
  | ProcessPerson pid' person_name is_recognized attendance_marked now =>
      bool_decide (pid' = pid) &&
      match people (handler (step s ev)) !! pid with
      | Some person =>
          bool_decide
            (already_marked_text (name person) ∈
             (enqueued_by (handler s) pid' person_name
                is_recognized attendance_marked now).*1)
      | None => false
      end
  | _ => false
  end.

Fixpoint already_marked_count (pid : string) (s : System) (evs : list Event)
  : nat :=
  match evs with
  | [] => 0%nat
  | ev :: evs' =>
      ((if announces_already_marked pid s ev then 1 else 0)
       + already_marked_count pid (step s ev) evs')%nat
  end.

(** Does this event evict the record of [pid]? *)
Definition evicts (pid : string) (s : System) (ev : Event) : bool :=
  match ev with
  | Cleanup _ =>
      bool_decide (is_Some (people (handler s) !! pid)) &&
      bool_decide (people (handler (step s ev)) !! pid = None)
  | _ => false
  end.

Fixpoint eviction_count (pid : string) (s : System) (evs : list Event)
  : nat :=
  match evs with
  | [] => 0%nat
  | ev :: evs' =>
      ((if evicts pid s ev then 1 else 0)
       + eviction_count pid (step s ev) evs')%nat
  end.

(** Clock readings of the playback thread along a run, and the readings
    at which it popped an item (the starts of the playbacks). *)
Definition worker_clock (evs : list Event) : list Z :=
  omap (λ ev, match ev with
              | WorkerPoll t | WorkerPlayed _ t => Some t
              | _ => None
              end) evs.

Definition starts_playback (s : System) (ev : Event) : option Z :=
  match ev, worker s, worker (step s ev) with
  | WorkerPoll t, Polling, Playing _ => Some t
  | _, _, _ => None
  end.

Fixpoint playback_starts (s : System) (evs : list Event) : list Z :=
  match evs with
  | [] => []
  | ev :: evs' =>
      match starts_playback s ev with
      | Some t => t :: playback_starts (step s ev) evs'
      | None => playback_starts (step s ev) evs'
      end
  end.

(** Texts handed to the backend along a run, in order. *)
Fixpoint played_texts (s : System) (evs : list Event) : list string :=
  match evs with
  | [] => []
  | ev :: evs' =>
      match ev, worker s, worker (step s ev) with
      | WorkerPoll _, Polling, Playing audio_text =>
          audio_text :: played_texts (step s ev) evs'
      | _, _, _ => played_texts (step s ev) evs'
      end
  end.

(** Texts appended to the queue along a run, in order. *)
Fixpoint enqueued_texts (s : System) (evs : list Event) : list string :=
  match evs with
  | [] => []
  | ev :: evs' =>
      match ev with
      | ProcessPerson pid person_name is_recognized attendance_marked now =>
          (enqueued_by (handler s) pid person_name
             is_recognized attendance_marked now).*1
      | _ => []
      end ++ enqueued_texts (step s ev) evs'
  end.

Fixpoint nondecreasing_from (lo : Z) (l : list Z) : bool :=
  match l with
  | [] => true
  | t :: l' => bool_decide (lo ≤ t) && nondecreasing_from t l'
  end.

Definition nondecreasing (l : list Z) : bool :=
  match l with
  | [] => true
  | t :: l' => nondecreasing_from t l'
  end.

(** Each element is at least [gap] after the one before it. *)
Fixpoint spaced_from (gap lo : Z) (l : list Z) : bool :=
  match l with
  | [] => true
  | t :: l' => bool_decide (lo + gap ≤ t) && spaced_from gap t l'
  end.

Definition spaced (gap : Z) (l : list Z) : bool :=
  match l with
  | [] => true
  | t :: l' => spaced_from gap t l'
  end.

(** ** Definitions used by the statements *)

(** The record a call of [process_person] works on: the one found under
    [pid], or the one [_get_or_create_person] makes. *)
Definition fetched_person (h : AudioHandler) (pid person_name : string)
    (current_time : Z) : PersonRecord :=
  (_get_or_create_person h pid person_name current_time).2.

(** What one call does to the record it works on and what it appends,
    case by case. *)
Inductive person_outcome (r0 : PersonRecord) (attendance_marked : bool)
    (now : Z) : PersonRecord -> list AudioItem -> Prop :=
  | outcome_locked :
      now < audio_lock_until r0 ->
      person_outcome r0 attendance_marked now (set_last_seen_time r0 now) []
  | outcome_unchanged :
      audio_lock_until r0 <= now ->
      match state r0 with
      | NEW => False
      | MARKING => attendance_marked = false
      | MARKED => now - last_seen_time r0 <= REAPPEAR_THRESHOLD
      | IGNORED => True
      end ->
      person_outcome r0 attendance_marked now (set_last_seen_time r0 now) []
  | outcome_marking :
      audio_lock_until r0 <= now ->
      state r0 = NEW ->
      person_outcome r0 attendance_marked now
        (set_audio_lock_until
           (set_state (set_last_seen_time r0 now) MARKING)
           (now + AUDIO_COOLDOWN_PER_PERSON))
        [("Marking attendance", now)]
  | outcome_marked :
      audio_lock_until r0 <= now ->
      state r0 = MARKING ->
      attendance_marked = true ->
      person_outcome r0 attendance_marked now
        (set_audio_lock_until
           (set_state (set_last_seen_time r0 now) MARKED)
           (now + AUDIO_COOLDOWN_PER_PERSON))
        [("Greetings " +:+ name r0, now)]
  | outcome_ignored :
      audio_lock_until r0 <= now ->
      state r0 = MARKED ->
      REAPPEAR_THRESHOLD < now - last_seen_time r0 ->
      has_triggered_ignored_audio r0 = false ->
      person_outcome r0 attendance_marked now
        (set_audio_lock_until
           (set_has_triggered_ignored_audio
              (set_state (set_last_seen_time r0 now) IGNORED) true)
           (now + AUDIO_COOLDOWN_PER_PERSON))
        [(already_marked_text (name r0), now)]
  | outcome_guarded :
      audio_lock_until r0 <= now ->
      state r0 = MARKED ->
      REAPPEAR_THRESHOLD < now - last_seen_time r0 ->
      has_triggered_ignored_audio r0 = true ->
      person_outcome r0 attendance_marked now
        (set_state (set_last_seen_time r0 now) IGNORED) [].

Ltac outcome_case :=
  first
    [ by (apply outcome_locked; simpl in *; lia)
    | by (apply outcome_unchanged; simpl in *; [lia | first [done | lia]])
    | by (apply outcome_marking; simpl in *; [lia | done])
    | by (apply outcome_marked; simpl in *; [lia | done | done])
    | by (apply outcome_ignored; simpl in *; [lia | done | lia | done])
    | by (apply outcome_guarded; simpl in *; [lia | done | lia | done]) ].

Ltac close_outcome :=
  first
    [ eexists _, [_]; split; [reflexivity | outcome_case]
    | eexists _, []; rewrite app_nil_r; split; [reflexivity | outcome_case] ].

(** The order NEW, MARKING, MARKED, IGNORED. *)
Definition state_le (a b : PersonState) : Prop :=
  (PersonState_code a <= PersonState_code b)%nat.

(** Every record whose flag is set is IGNORED. *)
Definition flag_implies_ignored (h : AudioHandler) : Prop :=
  forall pid r,
    people h !! pid = Some r ->
    has_triggered_ignored_audio r = true -> state r = IGNORED.

(** The table of messages as the source writes it, by transition. *)
Definition announcement_text (previous_state new_state : PersonState)
    (person_name : string) : option string :=
  match previous_state, new_state with
  | NEW, MARKING => Some "Marking attendance"
  | MARKING, MARKED => Some ("Greetings " +:+ person_name)
  | MARKED, IGNORED =>
      Some (person_name +:+
            ", your attendance is already marked. Only once per session.")
  | _, _ => None
  end.

(** The table as the design document prints it: a comma follows
    "Greetings". *)
Definition documented_announcement_text (previous_state new_state : PersonState)
    (person_name : string) : option string :=
  match previous_state, new_state with
  | NEW, MARKING => Some "Marking attendance"
  | MARKING, MARKED => Some ("Greetings, " +:+ person_name)
  | MARKED, IGNORED =>
      Some (person_name +:+
            ", your attendance is already marked. Only once per session.")
  | _, _ => None
  end.

(** The state a call finds: that of the record under [pid], or NEW, the
    state of the record it creates. *)
Definition state_before (h : AudioHandler) (pid : string) : PersonState :=
  match people h !! pid with
  | Some r => state r
  | None => NEW
  end.

(** In every reachable handler, a call of [process_person] appends
    exactly what [table] gives for the state change it made to the
    record of [pid], stamped with the current time, and nothing when
    [table] has no entry. *)
Definition announcements_follow
    (table : PersonState -> PersonState -> string -> option string) : Prop :=
  forall (evs : list Event) pid pname recognized marked now,
    let h := handler (run initial evs) in
    let h' := process_person h pid pname recognized marked now in
    audio_queue h' =
    audio_queue h ++
    match people h' !! pid with
    | Some r1 =>
        match table (state_before h pid) (state r1) (name r1) with
        | Some audio_text => [(audio_text, now)]
        | None => []
        end
    | None => []
    end.

(** The texts waiting in the queue, head first. *)
Definition queue_texts (s : System) : list string :=
  (audio_queue (handler s)).*1.

(** A session just started on a new handler. *)
Definition session_started : System := step initial StartSession.

(** Alice seen once at time 0: MARKING, locked until 5 s. *)
Definition alice_marking : AudioHandler :=
  process_person (start_session __init__) "001" "Alice" true false 0.

(** Alice MARKED at 5 s. *)
Definition alice_marked : list Event :=
  [ StartSession;
    ProcessPerson "001" "Alice" true false 0;
    ProcessPerson "001" "Alice" true true 5000 ].

(** The record [process_person] hands to
    [_trigger_audio_for_transition] when Alice, MARKED, is seen again
    at [now]. *)
Definition alice_reappears (now : Z) : PersonRecord :=
  let r0 :=
    fetched_person (handler (run initial alice_marked)) "001" "Alice" now in
  _apply_state_transitions (set_last_seen_time r0 now) true
    (bool_decide (REAPPEAR_THRESHOLD < now - last_seen_time r0)).

(** Further sightings of Alice and Bob. *)
Definition alice_and_bob : list Event :=
  [ ProcessPerson "001" "Alice" true true 5000;
    ProcessPerson "002" "Bob" true false 6000;
    ProcessPerson "001" "Alice" true true 10000;
    ProcessPerson "001" "Alice" true true 20000 ].

(** Two items waiting, no playback yet. *)
Definition two_waiting : AudioHandler :=
  process_person alice_marking "002" "Bob" true false 100.


(** Two announcements queued 0.1 s apart and their playbacks. *)
Definition two_announcements : list Event :=
  [ ProcessPerson "001" "Alice" true false 0;
    ProcessPerson "002" "Bob" true false 100;
    WorkerPoll 150;
    WorkerPlayed Returned 900;
    WorkerPoll 950;
    WorkerPoll 2900;
    WorkerPlayed (Raised "no device") 3000 ].

(** Two playbacks with a session ended and a new one started in
    between. *)
Definition playback_across_sessions : list Event :=
  [ StartSession;
    ProcessPerson "001" "Alice" true false 0;
    WorkerPoll 100;
    WorkerPlayed Returned 600;
    EndSession;
    StartSession;
    ProcessPerson "002" "Bob" true false 700;
    WorkerPoll 750 ].

(** 1 when the record of [pid] is IGNORED, 0 otherwise. *)
Definition ignored_now (pid : string) (s : System) : nat :=
  match people (handler s) !! pid with
  | Some r => if bool_decide (state r = IGNORED) then 1 else 0
  | None => 0
  end.

(** Alice is marked and keeps reappearing; her record is never evicted. *)
Definition alice_again : list Event :=
  [ ProcessPerson "001" "Alice" true false 0;
    ProcessPerson "001" "Alice" true true 5000;
    ProcessPerson "001" "Alice" true true 10000;
    ProcessPerson "001" "Alice" true true 20000;
    ProcessPerson "001" "Alice" true true 30000 ].

(** One session in which Alice is announced as already marked, stays
    away for more than [SESSION_TIMEOUT], is evicted and comes back. *)
Definition alice_evicted : list Event :=
  [ ProcessPerson "001" "Alice" true false 0;
    ProcessPerson "001" "Alice" true true 5000;
    ProcessPerson "001" "Alice" true true 10000;
    ProcessPerson "001" "Alice" true true 11000;
    Cleanup 400000;
    ProcessPerson "001" "Alice" true true 400000;
    ProcessPerson "001" "Alice" true true 405000;
    ProcessPerson "001" "Alice" true true 410000 ].

(** ** Monitoring methods *)

(** [PersonState.value]. *)
Definition PersonState_value (s : PersonState) : string :=
  match s with
  | NEW => "NEW"
  | MARKING => "MARKING"
  | MARKED => "MARKED"
  | IGNORED => "IGNORED"
  end.

(** [self.people.get(person_id)] then [person.state if person else None];
    a [PersonRecord] is always truthy. *)
Definition get_person_state (h : AudioHandler) (pid : string)
  : option PersonState :=
  match people h !! pid with
  | Some person => Some (state person)
  | None => None
  end.

Definition get_all_states (h : AudioHandler) : gmap string string :=
  (λ p, PersonState_value (state p)) <$> people h.

(** The dictionary [get_session_info] returns, one field per key. *)
Record SessionInfo : Type := mkSessionInfo {
  info_session_active : bool;
  info_total_people : nat;
  info_queue_size : nat;
  info_states : gmap string string
}.

Definition get_session_info (h : AudioHandler) : SessionInfo :=
  mkSessionInfo (session_active h) (size (people h))
    (length (audio_queue h)) (get_all_states h).

(** ** Further observations on runs *)

(** The clock readings at which calls of [process_person] for [pid]
    appended an item to the queue, in order. *)
Fixpoint announcement_times (pid : string) (s : System) (evs : list Event)
  : list Z :=
  match evs with
  | [] => []
  | ev :: evs' =>
      match ev with
      | ProcessPerson pid' person_name is_recognized attendance_marked now =>
          if bool_decide (pid' = pid)
             && bool_decide
                  (enqueued_by (handler s) pid' person_name
                     is_recognized attendance_marked now ≠ [])
          then [now]
          else []
      | _ => []
      end ++ announcement_times pid (step s ev) evs'
  end.

(** Every [process_person] call reads a clock that is not negative. *)
Definition nonneg_clock (evs : list Event) : bool :=
  forallb (λ ev, match ev with
                 | ProcessPerson _ _ _ _ now => bool_decide (0 <= now)
                 | _ => true
                 end) evs.

(** No call for [pid] carries [attendance_marked = True]. *)
Definition never_marked (pid : string) (evs : list Event) : bool :=
  forallb (λ ev, match ev with
                 | ProcessPerson pid' _ _ attendance_marked _ =>
                     negb (bool_decide (pid' = pid) && attendance_marked)
                 | _ => true
                 end) evs.

(** Each recognized sighting of [pid] comes at most [REAPPEAR_THRESHOLD]
    after the one before it, [last] being the sighting before the
    first. *)
Fixpoint stays_in_view (pid : string) (last : Z) (evs : list Event) : bool :=
  match evs with
  | [] => true
  | ProcessPerson pid' _ true _ now :: evs' =>
      if bool_decide (pid' = pid)
      then bool_decide (now - last <= REAPPEAR_THRESHOLD)
           && stays_in_view pid now evs'
      else stays_in_view pid last evs'
  | _ :: evs' => stays_in_view pid last evs'
  end.

(** Position of the record of [pid] in NEW, MARKING, MARKED, IGNORED;
    0 when there is no record. *)
Definition rank_now (pid : string) (s : System) : nat :=
  match people (handler s) !! pid with
  | Some r => PersonState_code (state r)
  | None => 0
  end.

(** A schedule of iterations of the playback loop: for each, the clock
    read under the queue lock, what the backend does, and the clock read
    for the cooldown. *)
Definition schedule_events (schedule : list (Z * BackendOutcome * Z))
  : list Event :=
  flat_map (λ it : Z * BackendOutcome * Z,
              [WorkerPoll it.1.1; WorkerPlayed it.1.2 it.2]) schedule.

(** Each iteration polls no earlier than [ready], the end of the cooldown
    the iteration before it set. *)
Fixpoint schedule_ready (ready : Z) (schedule : list (Z * BackendOutcome * Z))
  : bool :=
  match schedule with
  | [] => true
  | it :: rest =>
      bool_decide (ready <= it.1.1)
      && schedule_ready (it.2 + AUDIO_COOLDOWN_GLOBAL) rest
  end.

(** The registry keeps every record under its own [person_id]. *)
Definition keyed_by_person_id (h : AudioHandler) : Prop :=
  forall pid r, people h !! pid = Some r -> person_id r = pid.

(** No record of the registry is in state NEW. *)
Definition no_new_record (h : AudioHandler) : Prop :=
  forall pid r, people h !! pid = Some r -> state r <> NEW.

(** Three people seen at different times, for the cleanup sweeps. *)
Definition three_people : AudioHandler :=
  process_person
    (process_person
       (process_person (start_session __init__) "001" "Alice" true false 0)
       "002" "Bob" true false 200000)
    "003" "Carol" true false 350000.

(** No [start_session] among the events. *)
Definition no_start_session (evs : list Event) : bool :=
  forallb (λ ev, match ev with StartSession => false | _ => true end) evs.

(** * Facts about the operations *)

Lemma audio_messages_lookup person a b :
  audio_messages person !! (a, b) =
  match a, b with
  | NEW, MARKING => Some "Marking attendance"
  | MARKING, MARKED => Some ("Greetings " +:+ name person)
  | MARKED, IGNORED => Some (already_marked_text (name person))
  | _, _ => None
  end.
Proof. destruct a, b; reflexivity. Qed.

Lemma process_person_inactive h pid pname recognized marked now :
  session_active h = false ->
  process_person h pid pname recognized marked now = h.
Proof. intros Ha. unfold process_person. rewrite Ha. reflexivity. Qed.

Lemma process_person_unrecognized h pid pname marked now :
  process_person h pid pname false marked now = h.
Proof. unfold process_person. destruct (session_active h); reflexivity. Qed.

Lemma process_person_active h pid pname marked now :
  session_active h = true ->
  exists r1 l,
    process_person h pid pname true marked now =
      mkAudioHandler true (global_cooldown_until h)
        (<[ pid := r1 ]> (people h)) (audio_queue h ++ l)
        (audio_thread_running h)
    /\ person_outcome (fetched_person h pid pname now) marked now r1 l.
Proof.
  intros Ha. destruct h as [act cd ppl q run]. simpl in Ha. subst act.
  unfold process_person, fetched_person, _get_or_create_person. simpl.
  set (fresh := mkPersonRecord pid pname NEW 0 now 0 false).
  assert (Hins : forall r, <[pid:=r]> (<[pid:=fresh]> ppl) = <[pid:=r]> ppl)
    by (intros r; apply insert_insert_eq).
  destruct (ppl !! pid) as [r0|] eqn:Hlk; simpl.
  - case_bool_decide as Hlock.
    + exists (set_last_seen_time r0 now), []. rewrite app_nil_r.
      split; [reflexivity | by constructor].
    + unfold _apply_state_transitions, _trigger_audio_for_transition.
      simpl. destruct r0 as [i n st la ls lk fl]. simpl in *.
      destruct st; simpl.
      all: try destruct marked; simpl.
      all: try (destruct (bool_decide (REAPPEAR_THRESHOLD < now - ls)) eqn:Hre;
                [apply bool_decide_eq_true in Hre
                |apply bool_decide_eq_false in Hre]; simpl).
      all: try (case_bool_decide; [|done]); try (case_bool_decide; [done|]).
      all: rewrite ?audio_messages_lookup; simpl.
      all: try destruct fl; simpl.
      all: close_outcome.
  - unfold store_person. simpl. case_bool_decide as Hlock.
    + simpl. rewrite Hins. close_outcome.
    + unfold _apply_state_transitions, _trigger_audio_for_transition.
      simpl. rewrite ?audio_messages_lookup.
      simpl. rewrite Hins. close_outcome.
Qed.

Lemma fetched_person_found h pid pname now r :
  people h !! pid = Some r -> fetched_person h pid pname now = r.
Proof.
  intros Hlk. unfold fetched_person, _get_or_create_person.
  rewrite Hlk. reflexivity.
Qed.

Lemma fetched_person_fresh h pid pname now :
  people h !! pid = None ->
  fetched_person h pid pname now = mkPersonRecord pid pname NEW 0 now 0 false.
Proof.
  intros Hlk. unfold fetched_person, _get_or_create_person.
  rewrite Hlk. reflexivity.
Qed.

Lemma person_outcome_length r0 marked now r1 l :
  person_outcome r0 marked now r1 l -> (length l <= 1)%nat.
Proof. destruct 1; simpl; lia. Qed.

Lemma person_outcome_last_seen r0 marked now r1 l :
  person_outcome r0 marked now r1 l -> last_seen_time r1 = now.
Proof. destruct 1; reflexivity. Qed.

Lemma person_outcome_name r0 marked now r1 l :
  person_outcome r0 marked now r1 l -> name r1 = name r0.
Proof. destruct 1; reflexivity. Qed.

Lemma person_outcome_state_le r0 marked now r1 l :
  person_outcome r0 marked now r1 l ->
  (PersonState_code (state r0) <= PersonState_code (state r1))%nat.
Proof.
  destruct 1 as [| | ? Hst | ? Hst | ? Hst | ? Hst];
    simpl; rewrite ?Hst; simpl; lia.
Qed.

(** * The claims *)

(** C7.  A call of [process_person] made while the session is inactive,
    or with [is_recognized] false, changes nothing in the handler: no
    record is created or modified, no state moves, nothing is enqueued. *)
Theorem process_person_invalid_noop h pid pname recognized marked now :
  session_active h = false \/ recognized = false ->
  process_person h pid pname recognized marked now = h.
Proof.
  intros [Ha | ->].
  - by apply process_person_inactive.
  - apply process_person_unrecognized.
Qed.

Lemma process_person_invalid_noop_witness :
  (session_active __init__ = false \/ true = false)
  /\ process_person __init__ "001" "Alice" true true 7 = __init__.
Proof.
  split; [left; reflexivity |].
  apply (process_person_invalid_noop __init__ "001" "Alice" true true 7).
  left; reflexivity.
Defined.

(** C8.  Whatever happened before, right after [start_session()] the
    person registry is empty, the queue is empty, the global cooldown is
    back at 0.0 and the session is active. *)
Theorem start_session_resets (evs : list Event) :
  let h := handler (step (run initial evs) StartSession) in
  people h = ∅ /\ audio_queue h = [] /\ global_cooldown_until h = 0
  /\ session_active h = true.
Proof. simpl. auto. Qed.

(** C3.  On an active session with [is_recognized] true, the call leaves
    under [pid] a record whose [last_seen_time] is the current time; when
    the per-person lock has expired its state is the one the transition
    table gives with the reappearance flag taken from the old
    [last_seen_time]; and when [current_time < audio_lock_until] nothing
    but [last_seen_time] changes: no transition, nothing enqueued,
    whatever [attendance_marked] says. *)
Theorem process_person_lock_gate h pid pname marked now :
  session_active h = true ->
  let r0 := fetched_person h pid pname now in
  let h' := process_person h pid pname true marked now in
  exists r1,
    people h' !! pid = Some r1
    /\ last_seen_time r1 = now
    /\ (audio_lock_until r0 <= now ->
        state r1 =
        state (_apply_state_transitions r0 marked
                 (bool_decide
                    (REAPPEAR_THRESHOLD < now - last_seen_time r0))))
    /\ (now < audio_lock_until r0 ->
        r1 = set_last_seen_time r0 now
        /\ h' = set_people h (<[ pid := r1 ]> (people h))
        /\ audio_queue h' = audio_queue h).
Proof.
  intros Ha r0 h'.
  destruct (process_person_active h pid pname marked now Ha)
    as (r1 & l & Heq & Hout).
  fold r0 in Hout. fold h' in Heq. exists r1.
  split; [rewrite Heq; simpl; apply lookup_insert_eq |].
  split; [by eapply person_outcome_last_seen |].
  split.
  - intros Hle. unfold _apply_state_transitions.
    destruct Hout as [Hlt | ? Hsame | ? Hst | ? Hst Hm | ? Hst Hre | ? Hst Hre];
      simpl; try lia.
    + destruct (state r0) eqn:Hst0; try done.
      * by rewrite Hsame.
      * by rewrite bool_decide_eq_false_2 by lia.
    + by rewrite Hst.
    + by rewrite Hst, Hm.
    + rewrite Hst, bool_decide_eq_true_2 by lia. done.
    + rewrite Hst, bool_decide_eq_true_2 by lia. done.
  - intros Hlt.
    destruct Hout; try lia.
    rewrite Heq. simpl. rewrite app_nil_r.
    destruct h; simpl in *; subst; auto.
Qed.

Lemma process_person_lock_gate_witness :
  session_active alice_marking = true
  /\ exists r1,
       people (process_person alice_marking "001" "Alice" true true 1000)
         !! "001" = Some r1
       /\ state r1 = MARKING /\ last_seen_time r1 = 1000.
Proof.
  split; [reflexivity |].
  destruct (process_person_lock_gate alice_marking "001" "Alice" true 1000
              eq_refl)
    as (r1 & Hlk & Hseen & _ & Hlocked).
  exists r1. split; [exact Hlk |].
  destruct Hlocked as (-> & _); [vm_compute; reflexivity |].
  split; reflexivity.
Defined.

(** C10.  A call of [process_person] appends at most one item; it appends
    one exactly when it moves the person's [audio_lock_until], and the new
    value is then [current_time + AUDIO_COOLDOWN_PER_PERSON]; a call that
    appends nothing leaves [audio_lock_until] as it was. *)
Theorem process_person_enqueue_iff_lock h pid pname recognized marked now :
  let h' := process_person h pid pname recognized marked now in
  exists l,
    audio_queue h' = audio_queue h ++ l
    /\ (length l <= 1)%nat
    /\ if session_active h && recognized
       then
         let r0 := fetched_person h pid pname now in
         exists r1,
           people h' !! pid = Some r1
           /\ ((l = [] /\ audio_lock_until r1 = audio_lock_until r0)
               \/ ((exists item, l = [item])
                   /\ audio_lock_until r1 = now + AUDIO_COOLDOWN_PER_PERSON
                   /\ audio_lock_until r1 <> audio_lock_until r0))
       else l = [] /\ people h' = people h.
Proof.
  intros h'. subst h'.
  destruct (session_active h) eqn:Ha; simpl.
  2: { exists []. rewrite process_person_inactive by done.
       rewrite app_nil_r. simpl. auto with lia. }
  destruct recognized; simpl.
  2: { exists []. rewrite process_person_unrecognized.
       rewrite app_nil_r. simpl. auto with lia. }
  destruct (process_person_active h pid pname marked now Ha)
    as (r1 & l & Heq & Hout).
  exists l. rewrite Heq. simpl.
  split; [done |]. split; [by eapply person_outcome_length |].
  exists r1. split; [apply lookup_insert_eq |].
  destruct Hout; simpl; unfold AUDIO_COOLDOWN_PER_PERSON.
  all: first [ left; split; reflexivity
          | right; split; [by eexists |]; split; [reflexivity | lia] ].
Qed.

(** ** Forward movement of the state *)

Lemma process_person_lookup_other h pid pname recognized marked now pid0 :
  pid <> pid0 ->
  people (process_person h pid pname recognized marked now) !! pid0
  = people h !! pid0.
Proof.
  intros Hne.
  destruct (session_active h) eqn:Ha;
    [| by rewrite process_person_inactive].
  destruct recognized; [| by rewrite process_person_unrecognized].
  destruct (process_person_active h pid pname marked now Ha)
    as (r1 & l & -> & _).
  simpl. by apply lookup_insert_ne.
Qed.

(** What a call does to a record that is already in the registry. *)
Lemma process_person_record h pid pname recognized marked now pid0 r :
  people h !! pid0 = Some r ->
  let h' := process_person h pid pname recognized marked now in
  people h' !! pid0 = Some r
  \/ (pid = pid0 /\ session_active h = true /\ recognized = true
      /\ exists r1 l,
           people h' !! pid0 = Some r1
           /\ audio_queue h' = audio_queue h ++ l
           /\ person_outcome r marked now r1 l).
Proof.
  intros Hlk h'. subst h'.
  destruct (decide (pid = pid0)) as [-> | Hne];
    [| left; by rewrite process_person_lookup_other].
  destruct (session_active h) eqn:Ha;
    [| left; by rewrite process_person_inactive].
  destruct recognized; [| left; by rewrite process_person_unrecognized].
  right. do 3 (split; [done |]).
  destruct (process_person_active h pid0 pname marked now Ha)
    as (r1 & l & -> & Hout).
  rewrite (fetched_person_found _ _ _ _ _ Hlk) in Hout.
  exists r1, l. simpl. by rewrite lookup_insert_eq.
Qed.

Lemma process_person_state_forward h pid pname recognized marked now pid0 r :
  people h !! pid0 = Some r ->
  exists r',
    people (process_person h pid pname recognized marked now) !! pid0
    = Some r'
    /\ state_le (state r) (state r')
    /\ (PersonState_code (state r') <= S (PersonState_code (state r)))%nat.
Proof.
  intros Hlk.
  destruct (process_person_record h pid pname recognized marked now pid0 r Hlk)
    as [Hsame | (_ & _ & _ & r1 & l & Hr1 & _ & Hout)].
  - exists r. unfold state_le. auto with lia.
  - exists r1. split; [done |]. unfold state_le.
    destruct Hout as [| | ? Hst | ? Hst | ? Hst | ? Hst];
      simpl; rewrite ?Hst; simpl; lia.
Qed.

(** C2.  Along any sequence of [process_person] calls a record stays in
    the registry and its state never moves backward in the order NEW,
    MARKING, MARKED, IGNORED; each call advances it by at most one
    position; and a record that is IGNORED stays IGNORED. *)
Theorem state_monotone (evs : list Event) (s : System) pid r :
  forallb is_process_person evs = true ->
  people (handler s) !! pid = Some r ->
  exists r',
    people (handler (run s evs)) !! pid = Some r'
    /\ state_le (state r) (state r')
    /\ (PersonState_code (state r')
        <= length evs + PersonState_code (state r))%nat
    /\ (state r = IGNORED -> state r' = IGNORED).
Proof.
  revert s r. induction evs as [| ev evs IH]; intros s r Hall Hlk.
  - exists r. unfold state_le. simpl. auto with lia.
  - simpl in Hall. apply andb_true_iff in Hall as [Hev Hall].
    destruct ev; try discriminate Hev. simpl.
    destruct (process_person_state_forward (handler s) pid0 person_name
                is_recognized attendance_marked current_time pid r Hlk)
      as (r1 & Hr1 & Hle1 & Hstep1).
    destruct (IH (step s (ProcessPerson pid0 person_name is_recognized
                            attendance_marked current_time)) r1 Hall Hr1)
      as (r' & Hr' & Hle' & Hsteps & _).
    exists r'. unfold state_le in *.
    split; [exact Hr' |]. split; [lia |]. split; [simpl; lia |].
    intros Hign. rewrite Hign in *. simpl in *.
    destruct (state r1); simpl in *; try lia.
    destruct (state r'); simpl in *; try lia. reflexivity.
Qed.

Lemma state_monotone_witness :
  forallb is_process_person alice_and_bob = true
  /\ people alice_marking !! "001"
     = Some (mkPersonRecord "001" "Alice" MARKING 0 0 5000 false)
  /\ exists r',
       people (handler (run (mkSystem alice_marking Polling) alice_and_bob))
         !! "001" = Some r'
       /\ state_le MARKING (state r').
Proof.
  split; [reflexivity |]. split; [reflexivity |].
  destruct (state_monotone alice_and_bob (mkSystem alice_marking Polling)
              "001" (mkPersonRecord "001" "Alice" MARKING 0 0 5000 false)
              eq_refl eq_refl)
    as (r' & Hr' & Hle & _).
  exists r'. split; [exact Hr' | exact Hle].
Defined.

(** ** The flag [has_triggered_ignored_audio] *)

Lemma session_cleanup_lookup h now pid :
  people (_session_cleanup_loop h now) !! pid = people h !! pid
  \/ people (_session_cleanup_loop h now) !! pid = None.
Proof.
  unfold _session_cleanup_loop. destruct (session_active h); simpl; [| by left].
  destruct (decide (pid ∈ cleanup_to_remove h now)) as [Hin | Hnin].
  - right. by apply lookup_foldr_delete.
  - left. by apply lookup_foldr_delete_not_elem_of.
Qed.

Lemma flag_implies_ignored_process h pid pname recognized marked now :
  flag_implies_ignored h ->
  flag_implies_ignored (process_person h pid pname recognized marked now).
Proof.
  intros Hinv pid0 r' Hr' Hflag.
  destruct (people h !! pid0) as [r |] eqn:Hlk.
  - destruct (process_person_record h pid pname recognized marked now
                pid0 r Hlk)
      as [Hsame | (_ & _ & _ & r1 & l & Hr1 & _ & Hout)].
    + rewrite Hsame in Hr'. injection Hr' as <-. by eapply Hinv.
    + rewrite Hr1 in Hr'. injection Hr' as <-.
      specialize (Hinv pid0 r Hlk).
      destruct Hout as [| | ? Hst | ? Hst | ? Hst | ? Hst];
        simpl in *; try done; try exact (Hinv Hflag).
      all: rewrite Hst in Hinv; by specialize (Hinv Hflag).
  - destruct (decide (pid = pid0)) as [-> | Hne];
      [| rewrite process_person_lookup_other in Hr' by done; congruence].
    destruct (session_active h) eqn:Ha;
      [| rewrite process_person_inactive in Hr' by done; congruence].
    destruct recognized;
      [| rewrite process_person_unrecognized in Hr'; congruence].
    destruct (process_person_active h pid0 pname marked now Ha)
      as (r1 & l & Heq & Hout).
    rewrite Heq in Hr'. simpl in Hr'. rewrite lookup_insert_eq in Hr'.
    injection Hr' as <-.
    rewrite (fetched_person_fresh _ _ _ _ Hlk) in Hout.
    inversion Hout; subst; simpl in *; done.
Qed.

Lemma flag_implies_ignored_step s ev :
  flag_implies_ignored (handler s) ->
  flag_implies_ignored (handler (step s ev)).
Proof.
  intros Hinv. destruct ev; simpl.
  - intros pid r Hlk. simpl in Hlk. by rewrite lookup_empty in Hlk.
  - intros pid r Hlk. simpl in Hlk. by rewrite lookup_empty in Hlk.
  - exact Hinv.
  - by apply flag_implies_ignored_process.
  - intros pid r Hlk.
    destruct (session_cleanup_lookup (handler s) current_time pid) as [He | He];
      rewrite He in Hlk; [exact (Hinv pid r Hlk) | done].
  - destruct (worker s); try exact Hinv.
    unfold poll_audio_queue.
    destruct (audio_queue (handler s)) as [| [text qt] rest]; [exact Hinv |].
    case_bool_decide; exact Hinv.
  - destruct (worker s); try exact Hinv.
    destruct (play_audio r); exact Hinv.
Qed.

Lemma flag_implies_ignored_run evs s :
  flag_implies_ignored (handler s) ->
  flag_implies_ignored (handler (run s evs)).
Proof.
  revert s. induction evs as [| ev evs IH]; intros s Hinv; [exact Hinv |].
  simpl. apply IH. by apply flag_implies_ignored_step.
Qed.

Lemma flag_implies_ignored_initial : flag_implies_ignored (handler initial).
Proof. intros pid r Hlk. simpl in Hlk. by rewrite lookup_empty in Hlk. Qed.

(** C9.  In every reachable handler a record whose
    [has_triggered_ignored_audio] is set is IGNORED.  So whenever a call
    changes the state of the record it works on, the test
    [person.state == IGNORED and person.has_triggered_ignored_audio] in
    [_trigger_audio_for_transition] is false: the early return is never
    taken. *)
Theorem ignored_flag_invariant (evs : list Event) pid pname marked now :
  let h := handler (run initial evs) in
  (forall r,
     people h !! pid = Some r ->
     has_triggered_ignored_audio r = true -> state r = IGNORED)
  /\ (let r0 := fetched_person h pid pname now in
      let person :=
        _apply_state_transitions (set_last_seen_time r0 now) marked
          (bool_decide (REAPPEAR_THRESHOLD < now - last_seen_time r0)) in
      state person <> state r0 ->
      bool_decide (state person = IGNORED)
      && has_triggered_ignored_audio person = false).
Proof.
  intros h.
  assert (Hinv : flag_implies_ignored h)
    by apply flag_implies_ignored_run, flag_implies_ignored_initial.
  split; [intros r; exact (Hinv pid r) |].
  intros r0 person Hchg.
  assert (Hr0 : has_triggered_ignored_audio r0 = true -> state r0 = IGNORED).
  { subst r0. destruct (people h !! pid) as [r |] eqn:Hlk.
    - rewrite (fetched_person_found _ _ _ _ _ Hlk). exact (Hinv pid r Hlk).
    - rewrite (fetched_person_fresh _ _ _ _ Hlk). done. }
  assert (Hfl : has_triggered_ignored_audio person
                = has_triggered_ignored_audio r0).
  { subst person. unfold _apply_state_transitions. simpl.
    destruct (state r0); simpl; try done.
    - by destruct marked.
    - by case_bool_decide. }
  rewrite Hfl. destruct (has_triggered_ignored_audio r0);
    [| by rewrite andb_false_r].
  exfalso. apply Hchg. rewrite (Hr0 eq_refl).
  subst person. unfold _apply_state_transitions. simpl.
  rewrite (Hr0 eq_refl). simpl. exact (Hr0 eq_refl).
Qed.

Lemma ignored_flag_invariant_witness :
  (state (fetched_person (handler (run initial alice_marked))
            "001" "Alice" 10000) = MARKED
   /\ state (alice_reappears 10000) = IGNORED)
  /\ bool_decide (state (alice_reappears 10000) = IGNORED)
     && has_triggered_ignored_audio (alice_reappears 10000) = false.
Proof.
  split; [split; reflexivity |].
  apply (ignored_flag_invariant alice_marked "001" "Alice" true 10000).
  vm_compute. discriminate.
Defined.

(** ** Announcement texts *)

Lemma announcement_text_same s n : announcement_text s s n = None.
Proof. by destruct s. Qed.

Lemma state_before_fetched h pid pname now :
  state_before h pid = state (fetched_person h pid pname now).
Proof.
  unfold state_before. destruct (people h !! pid) as [r |] eqn:Hlk.
  - by rewrite (fetched_person_found _ _ _ _ _ Hlk).
  - by rewrite (fetched_person_fresh _ _ _ _ Hlk).
Qed.

Lemma fetched_person_flag h pid pname now :
  flag_implies_ignored h ->
  has_triggered_ignored_audio (fetched_person h pid pname now) = true ->
  state (fetched_person h pid pname now) = IGNORED.
Proof.
  intros Hinv. destruct (people h !! pid) as [r |] eqn:Hlk.
  - rewrite (fetched_person_found _ _ _ _ _ Hlk). exact (Hinv pid r Hlk).
  - rewrite (fetched_person_fresh _ _ _ _ Hlk). done.
Qed.

(** C5 (amended).  The text enqueued for a state change is: for NEW to
    MARKING, "Marking attendance"; for MARKING to MARKED, "Greetings "
    followed by the record's name (no comma); for MARKED to IGNORED, the
    name followed by ", your attendance is already marked. Only once per
    session."; and a call that makes no such change enqueues nothing. *)
Theorem announcement_texts_as_coded : announcements_follow announcement_text.
Proof.
  intros evs pid pname recognized marked now h h'.
  assert (Hinv : flag_implies_ignored h)
    by apply flag_implies_ignored_run, flag_implies_ignored_initial.
  assert (Hnoop : h' = h ->
            audio_queue h' = audio_queue h ++
              match people h' !! pid with
              | Some r1 =>
                  match announcement_text (state_before h pid) (state r1)
                          (name r1) with
                  | Some audio_text => [(audio_text, now)]
                  | None => []
                  end
              | None => []
              end).
  { intros ->. unfold state_before.
    destruct (people h !! pid) as [r |];
      rewrite ?announcement_text_same; by rewrite app_nil_r. }
  destruct (session_active h) eqn:Ha;
    [| apply Hnoop; by apply process_person_inactive].
  destruct recognized;
    [| apply Hnoop; by apply process_person_unrecognized].
  clear Hnoop. subst h'.
  destruct (process_person_active h pid pname marked now Ha)
    as (r1 & l & -> & Hout).
  simpl. rewrite lookup_insert_eq. f_equal.
  rewrite (state_before_fetched h pid pname now).
  pose proof (fetched_person_flag h pid pname now Hinv) as Hfl.
  destruct Hout as [| ? Hsame | ? Hst | ? Hst | ? Hst | ? Hst ? Hflag]; simpl.
  - by rewrite announcement_text_same.
  - by rewrite announcement_text_same.
  - by rewrite Hst.
  - by rewrite Hst.
  - by rewrite Hst.
  - specialize (Hfl Hflag). congruence.
Qed.

(** C5 as documented fails: the greeting enqueued for Alice is
    "Greetings Alice", not "Greetings, Alice". *)
Lemma documented_greeting_differs :
  ~ announcements_follow documented_announcement_text.
Proof.
  intros Hdoc.
  specialize (Hdoc [StartSession; ProcessPerson "001" "Alice" true false 0]
                "001" "Alice" true true 5000).
  vm_compute in Hdoc. discriminate Hdoc.
Qed.

(** ** Playback *)

(** While the thread runs, one iteration of [_process_audio_queue] is a
    poll step followed by the step that receives the backend's
    outcome. *)
Lemma _process_audio_queue_steps h t r t' :
  audio_thread_running h = true ->
  run (mkSystem h Polling) [WorkerPoll t; WorkerPlayed r t']
  = mkSystem (_process_audio_queue h t r t').1 Polling
  /\ (_process_audio_queue h t r t').2 = Normal.
Proof.
  intros Hrun. unfold _process_audio_queue, loop_test. simpl. rewrite Hrun.
  simpl. unfold poll_audio_queue.
  destruct (audio_queue h) as [| [text qt] rest] eqn:Hq; simpl.
  { unfold loop_test. by rewrite Hrun. }
  case_bool_decide; simpl.
  { unfold loop_test. by rewrite Hrun. }
  unfold loop_test. destruct r; simpl; by rewrite Hrun.
Qed.



(** *** The poll *)

Lemma poll_audio_queue_not_ready h t :
  t < global_cooldown_until h -> poll_audio_queue h t = (h, None).
Proof.
  intros Hlt. unfold poll_audio_queue.
  destruct (audio_queue h) as [| [text qt] rest]; [done |].
  by rewrite bool_decide_eq_true_2.
Qed.

Lemma poll_audio_queue_pops h t h' audio_text :
  poll_audio_queue h t = (h', Some audio_text) ->
  global_cooldown_until h <= t
  /\ exists queue_time,
       audio_queue h = (audio_text, queue_time) :: audio_queue h'
       /\ h' = set_audio_queue h (audio_queue h').
Proof.
  unfold poll_audio_queue.
  destruct (audio_queue h) as [| [text qt] rest] eqn:Hq; [done |].
  case_bool_decide as Hcd; [done |].
  intros [= <- <-]. split; [lia |]. by exists qt.
Qed.

Lemma poll_audio_queue_none h t h' :
  poll_audio_queue h t = (h', None) -> h' = h.
Proof.
  unfold poll_audio_queue.
  destruct (audio_queue h) as [| [text qt] rest]; [congruence |].
  case_bool_decide; congruence.
Qed.

(** A poll either leaves the handler as it is and starts nothing, or
    pops the head and starts playing it. *)
Lemma step_worker_poll s t :
  (handler (step s (WorkerPoll t)) = handler s
   /\ (worker (step s (WorkerPoll t)) = Polling -> worker s = Polling)
   /\ starts_playback s (WorkerPoll t) = None
   /\ forall evs,
        played_texts s (WorkerPoll t :: evs)
        = played_texts (step s (WorkerPoll t)) evs)
  \/ (worker s = Polling
      /\ global_cooldown_until (handler s) <= t
      /\ exists audio_text queue_time rest,
           audio_queue (handler s) = (audio_text, queue_time) :: rest
           /\ step s (WorkerPoll t)
              = mkSystem (set_audio_queue (handler s) rest)
                  (Playing audio_text)
           /\ starts_playback s (WorkerPoll t) = Some t
           /\ forall evs,
                played_texts s (WorkerPoll t :: evs)
                = audio_text :: played_texts (step s (WorkerPoll t)) evs).
Proof.
  destruct s as [h w]. unfold starts_playback. cbn [played_texts].
  simpl. destruct w; [| left; by repeat split ..].
  destruct (poll_audio_queue h t) as [h' [text |]] eqn:Hpoll.
  - right. apply poll_audio_queue_pops in Hpoll
      as (Hcd & qt & Hq & ->).
    simpl in *. split; [done |]. split; [done |].
    exists text, qt, (audio_queue h'). by repeat split.
  - left. apply poll_audio_queue_none in Hpoll as ->. simpl.
    unfold loop_test. by destruct (audio_thread_running h).
Qed.

(** *** What does not touch the cooldown, the queue or the registry *)

Lemma process_person_frame h pid pname recognized marked now :
  let h' := process_person h pid pname recognized marked now in
  global_cooldown_until h' = global_cooldown_until h
  /\ session_active h' = session_active h
  /\ audio_thread_running h' = audio_thread_running h
  /\ audio_queue h'
     = audio_queue h ++ enqueued_by h pid pname recognized marked now.
Proof.
  intros h'. subst h'. unfold enqueued_by.
  destruct (session_active h) eqn:Ha.
  2: { rewrite process_person_inactive by done.
       by rewrite drop_all, app_nil_r. }
  destruct recognized.
  2: { rewrite process_person_unrecognized.
       by rewrite drop_all, app_nil_r. }
  destruct (process_person_active h pid pname marked now Ha)
    as (r1 & l & -> & _).
  simpl. by rewrite drop_app_length.
Qed.

Lemma session_cleanup_frame h now :
  global_cooldown_until (_session_cleanup_loop h now) = global_cooldown_until h
  /\ audio_queue (_session_cleanup_loop h now) = audio_queue h.
Proof. unfold _session_cleanup_loop. by destruct (session_active h). Qed.

Lemma step_worker_played_queue s r t :
  audio_queue (handler (step s (WorkerPlayed r t))) = audio_queue (handler s).
Proof. simpl. destruct (worker s); try done. by destruct (play_audio r). Qed.

(** *** First in, first out *)

Lemma playback_fifo evs :
  forall s,
    in_session evs = true ->
    queue_texts s ++ enqueued_texts s evs
    = played_texts s evs ++ queue_texts (run s evs).
Proof.
  induction evs as [| ev evs IH]; intros s Hin.
  - simpl. by rewrite app_nil_r.
  - simpl in Hin. apply andb_true_iff in Hin as [Hev Hin].
    specialize (IH (step s ev) Hin).
    destruct ev; try discriminate Hev.
    + simpl in *. by rewrite <- IH.
    + cbn [enqueued_texts played_texts run fold_left].
      fold (run (step s (ProcessPerson pid person_name is_recognized
                           attendance_marked current_time)) evs).
      rewrite <- IH. rewrite app_assoc. f_equal.
      unfold queue_texts. simpl.
      destruct (process_person_frame (handler s) pid person_name
                  is_recognized attendance_marked current_time)
        as (_ & _ & _ & ->).
      by rewrite fmap_app.
    + cbn [enqueued_texts played_texts run fold_left].
      fold (run (step s (Cleanup current_time)) evs).
      rewrite <- IH. simpl. f_equal. unfold queue_texts. simpl.
      by destruct (session_cleanup_frame (handler s) current_time) as [_ ->].
    + cbn [enqueued_texts run fold_left].
      fold (run (step s (WorkerPoll current_time)) evs).
      destruct (step_worker_poll s current_time)
        as [(Hh & _ & _ & Hpl)
           | (_ & _ & text & qt & rest & Hq & Hst & _ & Hpl)].
      * rewrite Hpl. unfold queue_texts in IH |- *.
        rewrite Hh in IH. exact IH.
      * rewrite Hpl, <- app_comm_cons, <- IH.
        unfold queue_texts. rewrite Hst, Hq. reflexivity.
    + cbn [enqueued_texts played_texts run fold_left].
      fold (run (step s (WorkerPlayed r current_time)) evs).
      rewrite <- IH. simpl. f_equal. unfold queue_texts. simpl.
      destruct (worker s); try done. by destruct (play_audio r).
Qed.

(** Across session resets too, what is played is played in the order
    it was enqueued: a reset drops waiting items, it never reorders. *)
Lemma played_in_order evs :
  forall s,
    played_texts s evs `sublist_of` queue_texts s ++ enqueued_texts s evs.
Proof.
  induction evs as [| ev evs IH]; intros s; [apply sublist_nil_l |].
  specialize (IH (step s ev)).
  destruct ev.
  - cbn [enqueued_texts played_texts]. by apply sublist_inserts_l.
  - cbn [enqueued_texts played_texts]. by apply sublist_inserts_l.
  - cbn [enqueued_texts played_texts]. exact IH.
  - cbn [enqueued_texts played_texts]. rewrite app_assoc.
    unfold queue_texts in IH. simpl in IH.
    destruct (process_person_frame (handler s) pid person_name
                is_recognized attendance_marked current_time)
      as (_ & _ & _ & Hq).
    rewrite Hq, fmap_app in IH. exact IH.
  - cbn [enqueued_texts played_texts].
    unfold queue_texts in IH. simpl in IH.
    destruct (session_cleanup_frame (handler s) current_time) as [_ Hq].
    rewrite Hq in IH. exact IH.
  - cbn [enqueued_texts].
    destruct (step_worker_poll s current_time)
      as [(Hh & _ & _ & Hpl)
         | (_ & _ & text & qt & rest & Hq & Hst & _ & Hpl)].
    + rewrite Hpl. unfold queue_texts in IH |- *.
      rewrite Hh in IH. exact IH.
    + rewrite Hpl. unfold queue_texts in *. rewrite Hst in IH |- *.
      rewrite Hq. simpl in *. by apply sublist_skip.
  - cbn [enqueued_texts played_texts].
    unfold queue_texts in IH.
    rewrite step_worker_played_queue in IH. exact IH.
Qed.

(** *** The global cooldown between playbacks *)

Lemma nondecreasing_from_weaken lo lo' l :
  lo <= lo' ->
  nondecreasing_from lo' l = true -> nondecreasing_from lo l = true.
Proof.
  intros Hle. destruct l as [| t l]; [done |]. simpl.
  rewrite !andb_true_iff, !bool_decide_eq_true.
  intros [? ?]. split; [lia | done].
Qed.

Lemma nondecreasing_from_tail t l :
  nondecreasing_from t l = true -> nondecreasing l = true.
Proof.
  destruct l as [| t' l]; [done |]. simpl.
  rewrite andb_true_iff. by intros [_ ?].
Qed.

Lemma nondecreasing_from_cons lo t l :
  nondecreasing_from lo (t :: l) = true ->
  lo <= t /\ nondecreasing_from t l = true /\ nondecreasing_from lo l = true.
Proof.
  simpl. rewrite andb_true_iff, bool_decide_eq_true. intros [Hle Hnd].
  split; [done |]. split; [done |]. by eapply nondecreasing_from_weaken.
Qed.

(** After a playback started at [t0]: while the thread is back at the top
    of its loop the cooldown is at least [t0 + AUDIO_COOLDOWN_GLOBAL]. *)
Lemma spaced_after evs :
  forall s t0,
    in_session evs = true ->
    nondecreasing_from t0 (worker_clock evs) = true ->
    (worker s = Polling ->
     t0 + AUDIO_COOLDOWN_GLOBAL <= global_cooldown_until (handler s)) ->
    spaced_from AUDIO_COOLDOWN_GLOBAL t0 (playback_starts s evs) = true.
Proof.
  induction evs as [| ev evs IH]; intros s t0 Hin Hnd Hcd; [done |].
  simpl in Hin. apply andb_true_iff in Hin as [Hev Hin].
  destruct ev; try discriminate Hev.
  - apply IH; [done | done |]. exact Hcd.
  - apply IH; [done | done |]. simpl.
    by destruct (process_person_frame (handler s) pid person_name
                   is_recognized attendance_marked current_time) as [-> _].
  - apply IH; [done | done |]. simpl.
    by destruct (session_cleanup_frame (handler s) current_time) as [-> _].
  - change (worker_clock (WorkerPoll current_time :: evs))
      with (current_time :: worker_clock evs) in Hnd.
    apply nondecreasing_from_cons in Hnd as (Hle & Hnd & Hnd0).
    cbn [playback_starts].
    destruct (step_worker_poll s current_time)
      as [(Hh & Hw & -> & _)
         | (Hw & Hready & text & qt & rest & _ & Hst & -> & _)].
    + apply IH; [done | done |]. rewrite Hh. intros Hp. by apply Hcd, Hw.
    + cbn [spaced_from]. apply andb_true_iff. split.
      * apply bool_decide_eq_true. specialize (Hcd Hw). lia.
      * apply IH; [done | done |]. by rewrite Hst.
  - change (worker_clock (WorkerPlayed r current_time :: evs))
      with (current_time :: worker_clock evs) in Hnd.
    apply nondecreasing_from_cons in Hnd as (Hle & Hnd & Hnd0).
    change (playback_starts s (WorkerPlayed r current_time :: evs))
      with (playback_starts (step s (WorkerPlayed r current_time)) evs).
    apply IH; [done | done |]. simpl.
    destruct (worker s) eqn:Hw; rewrite ?Hw; [exact Hcd | | done | done].
    destruct r; simpl; intros _; lia.
Qed.

Lemma playback_spaced evs :
  forall s,
    in_session evs = true ->
    nondecreasing (worker_clock evs) = true ->
    spaced AUDIO_COOLDOWN_GLOBAL (playback_starts s evs) = true.
Proof.
  induction evs as [| ev evs IH]; intros s Hin Hnd; [done |].
  pose proof Hin as Hin'.
  simpl in Hin. apply andb_true_iff in Hin as [Hev Hin].
  destruct ev; try discriminate Hev.
  - by apply IH.
  - by apply IH.
  - by apply IH.
  - change (nondecreasing_from current_time (worker_clock evs) = true) in Hnd.
    cbn [playback_starts].
    destruct (step_worker_poll s current_time)
      as [(_ & _ & -> & _)
         | (_ & _ & text & qt & rest & _ & Hst & -> & _)].
    + apply IH; [done |]. by eapply nondecreasing_from_tail.
    + cbn [spaced]. apply spaced_after; [done | done |]. by rewrite Hst.
  - change (nondecreasing_from current_time (worker_clock evs) = true) in Hnd.
    change (playback_starts s (WorkerPlayed r current_time :: evs))
      with (playback_starts (step s (WorkerPlayed r current_time)) evs).
    apply IH; [done |]. by eapply nondecreasing_from_tail.
Qed.

(** C4 (amended).  A poll made before [global_cooldown_until] leaves the
    handler untouched; a poll that takes an item takes the head of the
    queue, and only at or after [global_cooldown_until].  The texts
    played are played in the order they were enqueued, and within a
    session (no [start_session] / [end_session] among the events) none
    is skipped.  Two consecutive playbacks start at least
    [AUDIO_COOLDOWN_GLOBAL] apart when no [start_session] /
    [end_session] comes between them and the playback thread's clock
    readings never decrease. *)
Theorem playback_fifo_cooldown (s : System) (evs : list Event) :
  (forall h t,
     t < global_cooldown_until h -> poll_audio_queue h t = (h, None))
  /\ (forall h t h' audio_text,
        poll_audio_queue h t = (h', Some audio_text) ->
        global_cooldown_until h <= t
        /\ exists queue_time,
             audio_queue h = (audio_text, queue_time) :: audio_queue h')
  /\ played_texts s evs `sublist_of` queue_texts s ++ enqueued_texts s evs
  /\ (in_session evs = true ->
      queue_texts s ++ enqueued_texts s evs
      = played_texts s evs ++ queue_texts (run s evs))
  /\ (in_session evs = true ->
      nondecreasing (worker_clock evs) = true ->
      spaced AUDIO_COOLDOWN_GLOBAL (playback_starts s evs) = true).
Proof.
  split; [apply poll_audio_queue_not_ready |].
  split.
  { intros h t h' text Hpoll.
    apply poll_audio_queue_pops in Hpoll as (Hcd & qt & Hq & _). eauto. }
  split; [apply played_in_order |].
  split; [apply playback_fifo | apply playback_spaced].
Qed.

Lemma playback_fifo_cooldown_witness :
  (in_session two_announcements = true
   /\ nondecreasing (worker_clock two_announcements) = true)
  /\ played_texts session_started two_announcements
     = ["Marking attendance"; "Marking attendance"]
  /\ playback_starts session_started two_announcements = [150; 2900]
  /\ spaced AUDIO_COOLDOWN_GLOBAL
       (playback_starts session_started two_announcements) = true.
Proof.
  split; [split; reflexivity |].
  split; [reflexivity |]. split; [reflexivity |].
  destruct (playback_fifo_cooldown session_started two_announcements)
    as (_ & _ & _ & _ & Hspaced).
  apply Hspaced; reflexivity.
Defined.

(** C4 as stated fails: [start_session] puts [global_cooldown_until] back
    to 0.0, so a playback can start right after the previous one; here
    the second starts 0.65 s after the first. *)
Lemma cooldown_lost_across_sessions :
  nondecreasing (worker_clock playback_across_sessions) = true
  /\ playback_starts initial playback_across_sessions = [100; 750]
  /\ spaced AUDIO_COOLDOWN_GLOBAL
       (playback_starts initial playback_across_sessions) = false.
Proof. repeat split; vm_compute; reflexivity. Qed.

(** ** The "already marked" announcement *)

Lemma string_length_app (a b : string) :
  String.length (a +:+ b) = (String.length a + String.length b)%nat.
Proof. induction a as [| c a IH]; simpl; [done | by rewrite IH]. Qed.

Lemma already_marked_text_not_marking n :
  already_marked_text n <> "Marking attendance".
Proof.
  intros Heq. apply (f_equal String.length) in Heq.
  unfold already_marked_text in Heq. rewrite string_length_app in Heq.
  simpl in Heq. lia.
Qed.

Lemma already_marked_text_not_greeting n :
  already_marked_text n <> "Greetings " +:+ n.
Proof.
  intros Heq. apply (f_equal String.length) in Heq.
  unfold already_marked_text in Heq. rewrite !string_length_app in Heq.
  simpl in Heq. lia.
Qed.

Lemma ignored_now_le_1 pid s : (ignored_now pid s <= 1)%nat.
Proof.
  unfold ignored_now. destruct (people (handler s) !! pid); [| lia].
  case_bool_decide; lia.
Qed.

Lemma ignored_now_same pid s s' :
  people (handler s') !! pid = people (handler s) !! pid ->
  ignored_now pid s' = ignored_now pid s.
Proof. unfold ignored_now. by intros ->. Qed.

(** A [process_person] call that announces "already marked" takes the
    record from a state other than IGNORED to IGNORED; any other call
    keeps an IGNORED record IGNORED. *)
Lemma announce_step_process pid s pid' pname recognized marked now :
  let ev := ProcessPerson pid' pname recognized marked now in
  ((if announces_already_marked pid s ev then 1 else 0)
   + ignored_now pid s <= ignored_now pid (step s ev))%nat.
Proof.
  intros ev. subst ev. unfold announces_already_marked.
  destruct (decide (pid' = pid)) as [-> | Hne].
  2: { rewrite bool_decide_eq_false_2 by done. cbn [andb].
       rewrite (ignored_now_same pid s (step s _)); [lia |].
       simpl. by apply process_person_lookup_other. }
  rewrite bool_decide_eq_true_2 by done. cbn [andb].
  destruct (process_person_frame (handler s) pid pname recognized marked now)
    as (_ & _ & _ & Hq).
  destruct (session_active (handler s)) eqn:Ha.
  2: { unfold enqueued_by, ignored_now. simpl.
       rewrite process_person_inactive by done.
       rewrite drop_all. simpl.
       destruct (people (handler s) !! pid); simpl;
         rewrite ?bool_decide_eq_false_2 by apply not_elem_of_nil; lia. }
  destruct recognized.
  2: { unfold enqueued_by, ignored_now. simpl.
       rewrite process_person_unrecognized.
       rewrite drop_all. simpl.
       destruct (people (handler s) !! pid); simpl;
         rewrite ?bool_decide_eq_false_2 by apply not_elem_of_nil; lia. }
  destruct (process_person_active (handler s) pid pname marked now Ha)
    as (r1 & l & Heq & Hout).
  rewrite Heq in Hq. simpl in Hq. apply app_inv_head in Hq.
  rewrite <- Hq. clear Hq.
  assert (Hbefore :
            ignored_now pid s
            = (if bool_decide
                    (state (fetched_person (handler s) pid pname now)
                     = IGNORED)
               then match people (handler s) !! pid with
                    | Some _ => 1
                    | None => 0
                    end
               else 0)%nat).
  { unfold ignored_now.
    destruct (people (handler s) !! pid) as [r |] eqn:Hlk.
    - rewrite (fetched_person_found _ _ _ _ _ Hlk). by case_bool_decide.
    - rewrite (fetched_person_fresh _ _ _ _ Hlk). done. }
  rewrite Hbefore. clear Hbefore.
  unfold ignored_now. simpl. rewrite Heq. simpl. rewrite lookup_insert_eq.
  set (r0 := fetched_person (handler s) pid pname now) in *.
  destruct Hout as [| | ? Hst | ? Hst | ? Hst | ? Hst]; simpl.
  - case_bool_decide; destruct (people (handler s) !! pid); lia.
  - case_bool_decide; destruct (people (handler s) !! pid); lia.
  - rewrite Hst. simpl.
    rewrite bool_decide_eq_false_2; [simpl; lia |].
    rewrite list_elem_of_singleton. apply already_marked_text_not_marking.
  - rewrite Hst. simpl.
    rewrite bool_decide_eq_false_2; [simpl; lia |].
    rewrite list_elem_of_singleton. apply already_marked_text_not_greeting.
  - rewrite Hst. simpl. case_bool_decide; lia.
  - rewrite Hst. simpl. lia.
Qed.

Lemma announce_step pid s ev :
  session_event ev = false ->
  ((if announces_already_marked pid s ev then 1 else 0)
   + ignored_now pid s
   <= ignored_now pid (step s ev)
      + (if evicts pid s ev then 1 else 0))%nat.
Proof.
  intros Hev. destruct ev; try discriminate Hev.
  - cbn [announces_already_marked evicts].
    rewrite (ignored_now_same pid s (step s _)); [lia | done].
  - pose proof (announce_step_process pid s pid0 person_name is_recognized
                  attendance_marked current_time) as Hle.
    simpl in Hle |- *. lia.
  - unfold evicts, ignored_now. cbn [announces_already_marked step handler].
    destruct (session_cleanup_lookup (handler s) current_time pid) as [-> | ->].
    + destruct (bool_decide _ && bool_decide _); lia.
    + destruct (people (handler s) !! pid) as [r |]; [| simpl; lia].
      rewrite (bool_decide_eq_true_2 (is_Some _)) by (by eexists).
      rewrite (bool_decide_eq_true_2 (_ = None)) by done.
      simpl. case_bool_decide; lia.
  - cbn [announces_already_marked evicts].
    rewrite (ignored_now_same pid s (step s _)); [lia |].
    destruct (step_worker_poll s current_time)
      as [(Hh & _) | (_ & _ & text & qt & rest & _ & Hst & _)];
      [by rewrite Hh | by rewrite Hst].
  - cbn [announces_already_marked evicts].
    rewrite (ignored_now_same pid s (step s _)); [lia |]. simpl.
    destruct (worker s); try done. by destruct (play_audio r).
Qed.

Lemma already_marked_bound pid evs :
  forall s,
    in_session evs = true ->
    (already_marked_count pid s evs + ignored_now pid s
     <= ignored_now pid (run s evs) + eviction_count pid s evs)%nat.
Proof.
  induction evs as [| ev evs IH]; intros s Hin; [simpl; lia |].
  simpl in Hin. apply andb_true_iff in Hin as [Hev Hin].
  apply negb_true_iff in Hev.
  pose proof (announce_step pid s ev Hev) as Hstep.
  specialize (IH (step s ev) Hin).
  cbn [already_marked_count eviction_count run fold_left].
  fold (run (step s ev) evs). lia.
Qed.

(** X16.  Within a session the "already marked" announcement of a
    person is enqueued at most once for each record the person has: at
    most once as long as the cleanup thread does not evict the person's
    record, and never more than one time more than the number of such
    evictions. *)
Theorem already_marked_once_per_record pid (s : System) (evs : list Event) :
  in_session evs = true ->
  (already_marked_count pid s evs <= 1 + eviction_count pid s evs)%nat.
Proof.
  intros Hin.
  pose proof (already_marked_bound pid evs s Hin).
  pose proof (ignored_now_le_1 pid (run s evs)). lia.
Qed.

Lemma already_marked_once_per_record_witness :
  in_session alice_again = true
  /\ eviction_count "001" session_started alice_again = 0%nat
  /\ already_marked_count "001" session_started alice_again = 1%nat
  /\ (already_marked_count "001" session_started alice_again
      <= 1 + eviction_count "001" session_started alice_again)%nat.
Proof.
  split; [reflexivity |]. split; [reflexivity |]. split; [reflexivity |].
  apply (already_marked_once_per_record "001" session_started alice_again).
  reflexivity.
Defined.

(** C1.  The code breaks what its own comments promise ("IGNORED audio
    plays only once per person per session"): in one session, with no
    [start_session] / [end_session] in between, the "already marked"
    announcement is enqueued twice for the same [person_id].  The cleanup
    thread deletes the record that holds [has_triggered_ignored_audio],
    so the person starts over with a new record and the guard is
    lost. *)
Lemma already_marked_twice_after_eviction :
  in_session alice_evicted = true
  /\ already_marked_count "001" session_started alice_evicted = 2%nat.
Proof. split; vm_compute; reflexivity. Qed.

(** * Further properties of the handler *)

(** ** The cleanup sweep *)

Lemma elem_of_cleanup_to_remove h now pid :
  pid ∈ cleanup_to_remove h now
  <-> exists r,
        people h !! pid = Some r
        /\ last_seen_time r < now - SESSION_TIMEOUT.
Proof.
  unfold cleanup_to_remove. rewrite list_elem_of_fmap. split.
  - intros ([k r] & -> & Hin). apply list_elem_of_filter in Hin as [Hold Hin].
    apply elem_of_map_to_list in Hin. exists r. simpl in *. done.
  - intros (r & Hlk & Hold). exists (pid, r). split; [done |].
    apply list_elem_of_filter. split; [done |]. by apply elem_of_map_to_list.
Qed.

(** What a sweep on an active session leaves under each key. *)
Lemma cleanup_lookup h now pid :
  session_active h = true ->
  people (_session_cleanup_loop h now) !! pid
  = match people h !! pid with
    | Some r =>
        if bool_decide (last_seen_time r < now - SESSION_TIMEOUT)
        then None
        else Some r
    | None => None
    end.
Proof.
  intros Ha. unfold _session_cleanup_loop. rewrite Ha. simpl.
  destruct (people h !! pid) as [r |] eqn:Hlk.
  - case_bool_decide as Hold.
    + apply lookup_foldr_delete, elem_of_cleanup_to_remove. eauto.
    + rewrite lookup_foldr_delete_not_elem_of; [done |].
      rewrite elem_of_cleanup_to_remove. intros (r' & Hlk' & Hold').
      rewrite Hlk in Hlk'. injection Hlk' as <-. done.
  - rewrite lookup_foldr_delete_not_elem_of; [done |].
    rewrite elem_of_cleanup_to_remove. intros (r' & Hlk' & _). congruence.
Qed.

Lemma cleanup_inactive h now :
  session_active h = false -> _session_cleanup_loop h now = h.
Proof. intros Ha. unfold _session_cleanup_loop. by rewrite Ha. Qed.

Lemma cleanup_fields h now :
  session_active (_session_cleanup_loop h now) = session_active h
  /\ global_cooldown_until (_session_cleanup_loop h now)
     = global_cooldown_until h
  /\ audio_queue (_session_cleanup_loop h now) = audio_queue h
  /\ audio_thread_running (_session_cleanup_loop h now)
     = audio_thread_running h.
Proof.
  unfold _session_cleanup_loop.
  destruct (session_active h) eqn:Ha; simpl; by rewrite ?Ha.
Qed.

Lemma handler_eq h1 h2 :
  session_active h1 = session_active h2 ->
  global_cooldown_until h1 = global_cooldown_until h2 ->
  people h1 = people h2 ->
  audio_queue h1 = audio_queue h2 ->
  audio_thread_running h1 = audio_thread_running h2 ->
  h1 = h2.
Proof. destruct h1, h2. simpl. by intros -> -> -> -> ->. Qed.

(** X1.  A sweep of the cleanup thread on an active session removes
    exactly the records whose [last_seen_time] is more than
    [SESSION_TIMEOUT] before the current time and leaves every other
    record as it was; it touches nothing else of the handler, and on an
    inactive session it does nothing at all. *)
Theorem cleanup_removes_exactly_stale h now :
  (session_active h = true ->
   forall pid,
     people (_session_cleanup_loop h now) !! pid
     = match people h !! pid with
       | Some r =>
           if bool_decide (last_seen_time r < now - SESSION_TIMEOUT)
           then None
           else Some r
       | None => None
       end)
  /\ (session_active h = false -> _session_cleanup_loop h now = h)
  /\ _session_cleanup_loop h now
     = set_people h (people (_session_cleanup_loop h now)).
Proof.
  split; [intros Ha pid; by apply cleanup_lookup |].
  split; [apply cleanup_inactive |].
  unfold _session_cleanup_loop. destruct (session_active h); simpl; [done |].
  by destruct h.
Qed.

Lemma cleanup_removes_exactly_stale_witness :
  session_active three_people = true
  /\ get_person_state (_session_cleanup_loop three_people 400000) "001" = None
  /\ get_person_state (_session_cleanup_loop three_people 400000) "002"
     = Some MARKING
  /\ people (_session_cleanup_loop three_people 400000) !! "001" = None.
Proof.
  split; [reflexivity |]. split; [reflexivity |]. split; [reflexivity |].
  destruct (cleanup_removes_exactly_stale three_people 400000) as (Hlk & _).
  rewrite (Hlk eq_refl "001"). reflexivity.
Defined.

(** X2.  Sweeps compose: a sweep followed by a sweep at the same or a
    later time leaves what the later sweep alone would leave; in
    particular a sweep repeated at the same time changes nothing more. *)
Theorem cleanup_twice h t t' :
  t <= t' ->
  _session_cleanup_loop (_session_cleanup_loop h t) t'
  = _session_cleanup_loop h t'.
Proof.
  intros Hle. destruct (session_active h) eqn:Ha.
  2: { rewrite (cleanup_inactive h t Ha).
       by rewrite (cleanup_inactive h t' Ha). }
  destruct (cleanup_fields h t) as (Ha1 & Hc1 & Hq1 & Hr1).
  destruct (cleanup_fields (_session_cleanup_loop h t) t')
    as (Ha2 & Hc2 & Hq2 & Hr2).
  destruct (cleanup_fields h t') as (Ha3 & Hc3 & Hq3 & Hr3).
  apply handler_eq; try congruence.
  apply map_eq. intros pid.
  rewrite cleanup_lookup by congruence.
  rewrite !cleanup_lookup by done.
  destruct (people h !! pid) as [r |]; [| done].
  repeat case_bool_decide; try done; lia.
Qed.

Lemma cleanup_twice_witness :
  400000 <= 700000
  /\ _session_cleanup_loop (_session_cleanup_loop three_people 400000) 700000
     = _session_cleanup_loop three_people 700000.
Proof.
  split; [lia |]. apply (cleanup_twice three_people 400000 700000). lia.
Defined.

(** X3.  A person seen in an active session is not removed by a sweep
    that comes at most [SESSION_TIMEOUT] after that sighting: the record
    the call left is still there, unchanged. *)
Theorem seen_recently_survives h pid pname marked t t' :
  session_active h = true ->
  t' - t <= SESSION_TIMEOUT ->
  let h1 := process_person h pid pname true marked t in
  is_Some (people h1 !! pid)
  /\ people (_session_cleanup_loop h1 t') !! pid = people h1 !! pid.
Proof.
  intros Ha Hle h1. subst h1.
  destruct (process_person_active h pid pname marked t Ha)
    as (r1 & l & Heq & Hout).
  apply person_outcome_last_seen in Hout.
  rewrite cleanup_lookup by (by rewrite Heq).
  rewrite Heq. simpl. rewrite lookup_insert_eq.
  split; [by eexists |].
  rewrite bool_decide_eq_false_2 by lia. done.
Qed.

Lemma seen_recently_survives_witness :
  (session_active three_people = true /\ 700000 - 400000 <= SESSION_TIMEOUT)
  /\ get_person_state
       (_session_cleanup_loop
          (process_person three_people "001" "Alice" true true 400000)
          700000) "001"
     = Some MARKED.
Proof.
  split; [split; [reflexivity | vm_compute; discriminate] |].
  unfold get_person_state.
  destruct (seen_recently_survives three_people "001" "Alice" true
              400000 700000 eq_refl) as [_ ->].
  - vm_compute. discriminate.
  - reflexivity.
Defined.

(** X4.  A person last seen more than [SESSION_TIMEOUT] before a sweep is
    removed by it, and the next sighting starts over: a new record is
    made with the name of that call, it goes from NEW to MARKING at once
    and "Marking attendance" is enqueued again. *)
Theorem evicted_person_starts_over h pid pname marked t t' pname' marked' t'' :
  session_active h = true ->
  SESSION_TIMEOUT < t' - t ->
  0 <= t'' ->
  let h1 := process_person h pid pname true marked t in
  let h2 := _session_cleanup_loop h1 t' in
  let h3 := process_person h2 pid pname' true marked' t'' in
  people h2 !! pid = None
  /\ people h3 !! pid
     = Some (mkPersonRecord pid pname' MARKING 0 t''
               (t'' + AUDIO_COOLDOWN_PER_PERSON) false)
  /\ audio_queue h3 = audio_queue h1 ++ [("Marking attendance", t'')].
Proof.
  intros Ha Hgt Hpos h1 h2 h3.
  destruct (process_person_active h pid pname marked t Ha)
    as (r1 & l & Heq & Hout).
  apply person_outcome_last_seen in Hout.
  assert (Ha1 : session_active h1 = true) by (subst h1; by rewrite Heq).
  assert (Hgone : people h2 !! pid = None).
  { subst h2. rewrite cleanup_lookup by done. subst h1. rewrite Heq. simpl.
    rewrite lookup_insert_eq. by rewrite bool_decide_eq_true_2 by lia. }
  split; [exact Hgone |].
  destruct (cleanup_fields h1 t') as (Ha2 & _ & Hq2 & _).
  fold h2 in Ha2, Hq2. rewrite Ha1 in Ha2.
  destruct (process_person_active h2 pid pname' marked' t'' Ha2)
    as (r3 & l3 & Heq3 & Hout3).
  fold h3 in Heq3. rewrite (fetched_person_fresh _ _ _ _ Hgone) in Hout3.
  rewrite Heq3. simpl. rewrite lookup_insert_eq, Hq2.
  inversion Hout3; subst; simpl in *; try lia; try done.
Qed.

Lemma evicted_person_starts_over_witness :
  (session_active three_people = true
   /\ SESSION_TIMEOUT < 800000 - 400000 /\ 0 <= 900000)
  /\ get_person_state
       (process_person
          (_session_cleanup_loop
             (process_person three_people "001" "Alice" true true 400000)
             800000)
          "001" "Alicia" true true 900000) "001"
     = Some MARKING.
Proof.
  split; [split; [reflexivity | split; vm_compute; [reflexivity | discriminate]]
         |].
  unfold get_person_state.
  destruct (evicted_person_starts_over three_people "001" "Alice" true
              400000 800000 "Alicia" true 900000 eq_refl)
    as (_ & -> & _).
  - vm_compute. reflexivity.
  - vm_compute. discriminate.
  - reflexivity.
Defined.

(** ** Ended sessions and the stopped playback thread *)

Lemma step_worker_poll_handler s t :
  handler (step s (WorkerPoll t)) = handler s
  \/ exists item rest,
       audio_queue (handler s) = item :: rest
       /\ worker s = Polling
       /\ handler (step s (WorkerPoll t)) = set_audio_queue (handler s) rest.
Proof.
  simpl. destruct (worker s); [| by left ..].
  unfold poll_audio_queue.
  destruct (audio_queue (handler s)) as [| [text qt] rest] eqn:Hq; [by left |].
  case_bool_decide; [by left |]. right. by exists (text, qt), rest.
Qed.

Lemma step_worker_played_handler s r t :
  handler (step s (WorkerPlayed r t)) = handler s
  \/ handler (step s (WorkerPlayed r t)) = update_global_cooldown (handler s) t.
Proof.
  simpl. destruct (worker s); [by left | | by left ..].
  destruct (play_audio r); [by right | by left].
Qed.

(** X5.  Once [end_session] has run, and until [start_session] runs
    again, the handler accepts nothing: whatever calls of
    [process_person], sweeps and playback steps follow, the session stays
    inactive, the registry stays empty and the queue stays empty. *)
Theorem ended_session_stays_empty (s : System) (evs : list Event) :
  no_start_session evs = true ->
  let h := handler (run (step s EndSession) evs) in
  session_active h = false /\ people h = ∅ /\ audio_queue h = [].
Proof.
  intros Hno.
  assert (Hgen : forall evs s0,
            no_start_session evs = true ->
            session_active (handler s0) = false ->
            people (handler s0) = ∅ ->
            audio_queue (handler s0) = [] ->
            let h := handler (run s0 evs) in
            session_active h = false /\ people h = ∅ /\ audio_queue h = []).
  { clear. induction evs as [| ev evs IH]; intros s0 Hno Ha Hp Hq; [done |].
    simpl in Hno. apply andb_true_iff in Hno as [Hev Hno].
    cbn [run fold_left]. fold (run (step s0 ev) evs).
    destruct ev; try discriminate Hev.
    - by apply IH.
    - apply IH; simpl; done.
    - apply IH; [done | simpl ..];
        by rewrite process_person_inactive by done.
    - apply IH; [done | simpl ..]; by rewrite cleanup_inactive by done.
    - destruct (step_worker_poll_handler s0 current_time)
        as [Hsame | (item & rest & Hq' & _)]; [| congruence].
      apply IH; [done | by rewrite Hsame ..].
    - destruct (step_worker_played_handler s0 r current_time) as [Hh | Hh];
        apply IH; try done; by rewrite Hh. }
  by apply Hgen.
Qed.

Lemma ended_session_stays_empty_witness :
  no_start_session (alice_again ++ [Cleanup 50000; WorkerPoll 60000]) = true
  /\ get_session_info
       (handler (run (step session_started EndSession)
                   (alice_again ++ [Cleanup 50000; WorkerPoll 60000])))
     = mkSessionInfo false 0 0 ∅.
Proof.
  split; [reflexivity |].
  destruct (ended_session_stays_empty session_started
              (alice_again ++ [Cleanup 50000; WorkerPoll 60000]) eq_refl)
    as (Ha & Hp & Hq).
  unfold get_session_info, get_all_states.
  rewrite Ha, Hp, Hq. reflexivity.
Defined.

Lemma step_keeps_flag_false s ev :
  audio_thread_running (handler s) = false ->
  audio_thread_running (handler (step s ev)) = false.
Proof.
  intros Hrun. destruct ev; try done.
  - simpl.
    by destruct (process_person_frame (handler s) pid person_name
                   is_recognized attendance_marked current_time)
      as (_ & _ & -> & _).
  - simpl. by destruct (cleanup_fields (handler s) current_time)
      as (_ & _ & _ & ->).
  - destruct (step_worker_poll_handler s current_time)
      as [Hh | (item & rest & _ & _ & Hh)]; by rewrite Hh.
  - destruct (step_worker_played_handler s r current_time) as [Hh | Hh];
      by rewrite Hh.
Qed.

(** An event other than a poll starts no playback. *)
Lemma no_poll_no_start s ev evs :
  match ev with WorkerPoll _ => False | _ => True end ->
  playback_starts s (ev :: evs) = playback_starts (step s ev) evs
  /\ played_texts s (ev :: evs) = played_texts (step s ev) evs.
Proof. intros Hev. by destruct ev. Qed.

(** With the flag False, a thread that is not in an iteration never
    enters one again. *)
Lemma step_stays_out_of_loop s ev :
  audio_thread_running (handler s) = false ->
  worker s <> Polling ->
  worker (step s ev) <> Polling.
Proof.
  intros Hrun Hw. destruct ev; try done.
  - simpl. destruct (worker s) eqn:Hws; [done | by rewrite Hws ..].
  - simpl. destruct (worker s) eqn:Hws; [done | | by rewrite Hws ..].
    destruct (play_audio r); [| done]. simpl. unfold loop_test. simpl.
    by rewrite Hrun.
Qed.

Lemma out_of_loop_never_plays evs :
  forall s,
    audio_thread_running (handler s) = false ->
    worker s <> Polling ->
    playback_starts s evs = [] /\ played_texts s evs = [].
Proof.
  induction evs as [| ev evs IH]; intros s Hrun Hw; [done |].
  destruct (IH (step s ev) (step_keeps_flag_false s ev Hrun)
              (step_stays_out_of_loop s ev Hrun Hw)) as [Hs Hp].
  assert (Hother : match ev with WorkerPoll _ => False | _ => True end ->
                   playback_starts s (ev :: evs) = []
                   /\ played_texts s (ev :: evs) = []).
  { intros Hev. by destruct (no_poll_no_start s ev evs Hev) as [-> ->]. }
  destruct ev; try (by apply Hother).
  destruct (step_worker_poll s current_time)
    as [(_ & _ & Hst & Hpl) | (Hpoll & _)]; [| done].
  cbn [playback_starts]. by rewrite Hst, Hpl.
Qed.

(** X6.  Once [audio_thread_running] is False (as [shutdown] sets it) at
    most one more playback starts, whatever follows, a new
    [start_session] included: nothing sets the flag back; the iteration
    that had already passed the loop test may still pop and play one
    item, after which the thread leaves the loop; and a thread that is
    not in such an iteration plays nothing more. *)
Theorem stopped_worker_one_last_playback (s : System) (evs : list Event) :
  audio_thread_running (handler s) = false ->
  (length (playback_starts s evs) <= 1)%nat
  /\ (length (played_texts s evs) <= 1)%nat
  /\ audio_thread_running (handler (run s evs)) = false
  /\ (worker s <> Polling ->
      playback_starts s evs = [] /\ played_texts s evs = []).
Proof.
  intros Hrun.
  assert (Hgen : forall evs s,
            audio_thread_running (handler s) = false ->
            (length (playback_starts s evs) <= 1)%nat
            /\ (length (played_texts s evs) <= 1)%nat
            /\ audio_thread_running (handler (run s evs)) = false).
  { clear. induction evs as [| ev evs IH]; intros s Hrun; [simpl; auto |].
    pose proof (step_keeps_flag_false s ev Hrun) as Hrun'.
    destruct (IH (step s ev) Hrun') as (Hs & Hp & Hr).
    cbn [run fold_left]. fold (run (step s ev) evs).
    assert (Hother : match ev with WorkerPoll _ => False | _ => True end ->
                     (length (playback_starts s (ev :: evs)) <= 1)%nat
                     /\ (length (played_texts s (ev :: evs)) <= 1)%nat
                     /\ audio_thread_running (handler (run (step s ev) evs))
                        = false).
    { intros Hev. by destruct (no_poll_no_start s ev evs Hev) as [-> ->]. }
    destruct ev; try (by apply Hother).
    destruct (step_worker_poll s current_time)
      as [(_ & _ & Hst & Hpl)
         | (_ & _ & text & qt & rest & _ & Hpop & Hst & Hpl)].
    - cbn [playback_starts]. by rewrite Hst, Hpl.
    - destruct (out_of_loop_never_plays evs
                  (step s (WorkerPoll current_time)) Hrun')
        as [Hs0 Hp0]; [by rewrite Hpop |].
      cbn [playback_starts]. rewrite Hst, Hpl, Hs0, Hp0. simpl. auto. }
  destruct (Hgen evs s Hrun) as (Hs & Hp & Hr).
  split; [exact Hs |]. split; [exact Hp |]. split; [exact Hr |].
  intros Hw. by apply out_of_loop_never_plays.
Qed.

Lemma stopped_worker_one_last_playback_witness :
  audio_thread_running (handler (run (mkSystem two_waiting Polling) shutdown))
  = false
  /\ playback_starts (run (mkSystem two_waiting Polling) [StopWorker])
       [WorkerPoll 150; WorkerPlayed Returned 900; WorkerPoll 3000] = [150]
  /\ (length
        (played_texts (run (mkSystem two_waiting Polling) shutdown)
           (StartSession :: two_announcements)) <= 1)%nat.
Proof.
  split; [reflexivity |]. split; [reflexivity |].
  destruct (stopped_worker_one_last_playback
              (run (mkSystem two_waiting Polling) shutdown)
              (StartSession :: two_announcements) eq_refl)
    as (_ & Hp & _).
  exact Hp.
Defined.

(** ** Invariants of the registry *)

(** Where a record found after a step comes from: it was there before,
    or the step is a call of [process_person] for that person on an
    active session and the record is what that call made of the one it
    fetched. *)
Lemma step_lookup_Some s ev pid r' :
  people (handler (step s ev)) !! pid = Some r' ->
  people (handler s) !! pid = Some r'
  \/ exists pname marked now l,
       ev = ProcessPerson pid pname true marked now
       /\ session_active (handler s) = true
       /\ person_outcome (fetched_person (handler s) pid pname now)
            marked now r' l.
Proof.
  intros Hlk. destruct ev; simpl in Hlk.
  - by rewrite lookup_empty in Hlk.
  - by rewrite lookup_empty in Hlk.
  - by left.
  - destruct (decide (pid0 = pid)) as [-> | Hne];
      [| left; by rewrite process_person_lookup_other in Hlk].
    destruct (session_active (handler s)) eqn:Ha;
      [| left; by rewrite process_person_inactive in Hlk].
    destruct is_recognized;
      [| left; by rewrite process_person_unrecognized in Hlk].
    destruct (process_person_active (handler s) pid person_name
                attendance_marked current_time Ha)
      as (r1 & l & Heq & Hout).
    rewrite Heq in Hlk. simpl in Hlk. rewrite lookup_insert_eq in Hlk.
    injection Hlk as <-. right. by exists person_name, attendance_marked,
      current_time, l.
  - left.
    destruct (session_cleanup_lookup (handler s) current_time pid) as [He | He];
      rewrite He in Hlk; done.
  - left.
    destruct (step_worker_poll_handler s current_time)
      as [Hh | (item & rest & _ & _ & Hh)];
      change (people (handler (step s (WorkerPoll current_time))) !! pid
              = Some r') in Hlk; by rewrite Hh in Hlk.
  - left.
    destruct (step_worker_played_handler s r current_time) as [Hh | Hh];
      change (people (handler (step s (WorkerPlayed r current_time))) !! pid
              = Some r') in Hlk; by rewrite Hh in Hlk.
Qed.

Lemma person_outcome_person_id r0 marked now r1 l :
  person_outcome r0 marked now r1 l -> person_id r1 = person_id r0.
Proof. destruct 1; reflexivity. Qed.

Lemma fetched_person_id h pid pname now :
  keyed_by_person_id h -> person_id (fetched_person h pid pname now) = pid.
Proof.
  intros Hinv. destruct (people h !! pid) as [r |] eqn:Hlk.
  - rewrite (fetched_person_found _ _ _ _ _ Hlk). exact (Hinv pid r Hlk).
  - by rewrite (fetched_person_fresh _ _ _ _ Hlk).
Qed.

(** X7.  In every reachable handler each record sits in the registry
    under its own [person_id]: the key and the field never disagree. *)
Theorem registry_keyed_by_person_id (evs : list Event) pid r :
  people (handler (run initial evs)) !! pid = Some r -> person_id r = pid.
Proof.
  assert (Hgen : forall evs s,
            keyed_by_person_id (handler s) ->
            keyed_by_person_id (handler (run s evs))).
  { clear. induction evs as [| ev evs IH]; intros s Hinv; [exact Hinv |].
    cbn [run fold_left]. fold (run (step s ev) evs). apply IH.
    intros pid r' Hlk.
    destruct (step_lookup_Some s ev pid r' Hlk)
      as [Hold | (pname & marked & now & l & _ & _ & Hout)].
    - exact (Hinv pid r' Hold).
    - rewrite (person_outcome_person_id _ _ _ _ _ Hout).
      by apply fetched_person_id. }
  apply (Hgen evs initial).
  intros pid' r' Hlk. simpl in Hlk. by rewrite lookup_empty in Hlk.
Qed.

Lemma registry_keyed_by_person_id_witness :
  people (handler (run initial alice_marked)) !! "001"
  = Some (mkPersonRecord "001" "Alice" MARKED 0 5000 10000 false)
  /\ person_id (mkPersonRecord "001" "Alice" MARKED 0 5000 10000 false)
     = "001".
Proof.
  split; [reflexivity |].
  apply (registry_keyed_by_person_id alice_marked "001"). reflexivity.
Defined.

(** X8.  With a clock that is never negative, no record is ever left in
    state NEW: the call that creates a record moves it to MARKING before
    it returns, so [get_person_state] answers None, MARKING, MARKED or
    IGNORED, never NEW. *)
Theorem get_person_state_never_new (evs : list Event) pid :
  nonneg_clock evs = true ->
  get_person_state (handler (run initial evs)) pid <> Some NEW.
Proof.
  assert (Hgen : forall evs s,
            nonneg_clock evs = true ->
            no_new_record (handler s) ->
            no_new_record (handler (run s evs))).
  { clear. induction evs as [| ev evs IH]; intros s Hpos Hinv; [exact Hinv |].
    simpl in Hpos. apply andb_true_iff in Hpos as [Hev Hpos].
    cbn [run fold_left]. fold (run (step s ev) evs). apply IH; [done |].
    intros pid r' Hlk.
    destruct (step_lookup_Some s ev pid r' Hlk)
      as [Hold | (pname & marked & now & l & -> & _ & Hout)].
    - exact (Hinv pid r' Hold).
    - apply bool_decide_eq_true in Hev.
      destruct (people (handler s) !! pid) as [r |] eqn:Hlk0.
      + rewrite (fetched_person_found _ _ _ _ _ Hlk0) in Hout.
        specialize (Hinv pid r Hlk0).
        destruct Hout as [| | ? Hst | ? Hst | ? Hst | ? Hst]; simpl; done.
      + rewrite (fetched_person_fresh _ _ _ _ Hlk0) in Hout.
        inversion Hout; subst; simpl in *; try done; lia. }
  intros Hpos. unfold get_person_state.
  destruct (people (handler (run initial evs)) !! pid) as [r |] eqn:Hlk;
    [| done].
  intros [= Hst]. revert Hst. apply (Hgen evs initial Hpos) with pid; [| done].
  intros pid' r' Hlk'. simpl in Hlk'. by rewrite lookup_empty in Hlk'.
Qed.

Lemma get_person_state_never_new_witness :
  nonneg_clock (StartSession :: alice_evicted) = true
  /\ get_person_state (handler (run initial (StartSession :: alice_evicted)))
       "001" <> Some NEW.
Proof.
  split; [reflexivity |].
  apply (get_person_state_never_new (StartSession :: alice_evicted) "001").
  reflexivity.
Defined.

(** X9.  The monitoring methods agree with each other: [get_all_states]
    holds under each key the value of what [get_person_state] answers
    for it, distinct states have distinct values, and the
    [total_people] and [queue_size] of [get_session_info] are the
    number of entries of its [states] and the length of the queue. *)
Theorem monitoring_consistent h :
  (forall pid,
     get_all_states h !! pid = PersonState_value <$> get_person_state h pid)
  /\ (forall a b, PersonState_value a = PersonState_value b -> a = b)
  /\ info_total_people (get_session_info h)
     = size (info_states (get_session_info h))
  /\ info_queue_size (get_session_info h) = length (audio_queue h)
  /\ (forall pid,
        info_states (get_session_info h) !! pid = None
        <-> get_person_state h pid = None).
Proof.
  assert (Hlk : forall pid,
            get_all_states h !! pid
            = PersonState_value <$> get_person_state h pid).
  { intros pid. unfold get_all_states, get_person_state.
    rewrite lookup_fmap. by destruct (people h !! pid). }
  split; [exact Hlk |].
  split; [by intros [] [] |].
  split; [simpl; unfold get_all_states; by rewrite map_size_fmap |].
  split; [done |].
  intros pid. simpl. rewrite Hlk.
  by destruct (get_person_state h pid).
Qed.

Lemma monitoring_consistent_witness :
  get_person_state three_people "002" = Some MARKING
  /\ get_all_states three_people !! "002" = Some "MARKING"
  /\ info_total_people (get_session_info three_people) = 3%nat
  /\ size (info_states (get_session_info three_people)) = 3%nat.
Proof.
  destruct (monitoring_consistent three_people) as (Hlk & _ & Hsize & _).
  split; [reflexivity |].
  split; [rewrite (Hlk "002"); reflexivity |].
  split; [reflexivity |]. rewrite <- Hsize. reflexivity.
Defined.

(** ** The name of a person *)

(** X10.  The name of a person is fixed by the call that creates the
    record: for a person already in the registry the [person_name]
    argument of [process_person] is ignored, so two calls that differ
    only in it give the same handler, and the record keeps its name. *)
Theorem person_name_ignored_when_known
    h pid r name1 name2 recognized marked now :
  people h !! pid = Some r ->
  process_person h pid name1 recognized marked now
  = process_person h pid name2 recognized marked now
  /\ exists r',
       people (process_person h pid name1 recognized marked now) !! pid
       = Some r'
       /\ name r' = name r.
Proof.
  intros Hlk. split.
  - unfold process_person, _get_or_create_person. by rewrite Hlk.
  - destruct (process_person_record h pid name1 recognized marked now pid r Hlk)
      as [Hsame | (_ & _ & _ & r1 & l & Hr1 & _ & Hout)].
    + by exists r.
    + exists r1. split; [done |]. by eapply person_outcome_name.
Qed.

Lemma person_name_ignored_when_known_witness :
  people alice_marking !! "001"
  = Some (mkPersonRecord "001" "Alice" MARKING 0 0 5000 false)
  /\ audio_queue (process_person alice_marking "001" "Bob" true true 6000)
     = [("Marking attendance", 0); ("Greetings Alice", 6000)].
Proof.
  split; [reflexivity |].
  destruct (person_name_ignored_when_known alice_marking "001"
              (mkPersonRecord "001" "Alice" MARKING 0 0 5000 false)
              "Bob" "Alice" true true 6000 eq_refl) as [-> _].
  reflexivity.
Defined.

(** ** Announcements of one person *)

Lemma rank_now_fetched s pid pname now :
  rank_now pid s
  = PersonState_code (state (fetched_person (handler s) pid pname now)).
Proof.
  unfold rank_now. destruct (people (handler s) !! pid) as [r |] eqn:Hlk.
  - by rewrite (fetched_person_found _ _ _ _ _ Hlk).
  - by rewrite (fetched_person_fresh _ _ _ _ Hlk).
Qed.

(** A call for [pid] either appends nothing, and then neither lowers the
    state nor moves the lock, or appends one item, and then advances the
    state by one position and sets the lock, which had expired. *)
Lemma process_person_effect pid s pname recognized marked now :
  let ev := ProcessPerson pid pname recognized marked now in
  let e := enqueued_by (handler s) pid pname recognized marked now in
  (e = []
   /\ (rank_now pid s <= rank_now pid (step s ev))%nat
   /\ forall r,
        people (handler s) !! pid = Some r ->
        exists r',
          people (handler (step s ev)) !! pid = Some r'
          /\ audio_lock_until r' = audio_lock_until r)
  \/ ((exists item, e = [item])
      /\ rank_now pid (step s ev) = S (rank_now pid s)
      /\ (exists r1,
            people (handler (step s ev)) !! pid = Some r1
            /\ audio_lock_until r1 = now + AUDIO_COOLDOWN_PER_PERSON)
      /\ forall r,
           people (handler s) !! pid = Some r -> audio_lock_until r <= now).
Proof.
  intros ev e. subst ev e.
  destruct (process_person_frame (handler s) pid pname recognized marked now)
    as (_ & _ & _ & Hq).
  assert (Hnoop : process_person (handler s) pid pname recognized marked now
                  = handler s ->
                  enqueued_by (handler s) pid pname recognized marked now = []
                  /\ (rank_now pid s
                      <= rank_now pid
                           (step s (ProcessPerson pid pname recognized
                                      marked now)))%nat
                  /\ forall r,
                       people (handler s) !! pid = Some r ->
                       exists r',
                         people
                           (handler
                              (step s (ProcessPerson pid pname recognized
                                         marked now))) !! pid = Some r'
                         /\ audio_lock_until r' = audio_lock_until r).
  { intros Hsame. unfold rank_now, enqueued_by. simpl. rewrite Hsame.
    rewrite drop_all. split; [done |]. split; [lia |]. eauto. }
  destruct (session_active (handler s)) eqn:Ha;
    [| left; apply Hnoop; by apply process_person_inactive].
  destruct recognized;
    [| left; apply Hnoop; by apply process_person_unrecognized].
  clear Hnoop.
  destruct (process_person_active (handler s) pid pname marked now Ha)
    as (r1 & l & Heq & Hout).
  rewrite Heq in Hq. simpl in Hq. apply app_inv_head in Hq. rewrite <- Hq.
  rewrite (rank_now_fetched s pid pname now).
  assert (Hafter : people (handler (step s (ProcessPerson pid pname true
                                              marked now))) !! pid = Some r1).
  { simpl. rewrite Heq. simpl. apply lookup_insert_eq. }
  unfold rank_now. rewrite Hafter.
  assert (Hfound : forall r,
            people (handler s) !! pid = Some r ->
            fetched_person (handler s) pid pname now = r)
    by (intros r Hlk; by apply fetched_person_found).
  destruct Hout as [| | ? Hst | ? Hst | ? Hst | ? Hst]; simpl.
  - left. split; [done |]. split; [lia |].
    intros r Hlk. rewrite <- (Hfound r Hlk). eauto.
  - left. split; [done |]. split; [lia |].
    intros r Hlk. rewrite <- (Hfound r Hlk). eauto.
  - right. rewrite Hst. split; [eauto |]. split; [done |]. split; [eauto |].
    intros r Hlk. by rewrite <- (Hfound r Hlk).
  - right. rewrite Hst. split; [eauto |]. split; [done |]. split; [eauto |].
    intros r Hlk. by rewrite <- (Hfound r Hlk).
  - right. rewrite Hst. split; [eauto |]. split; [done |]. split; [eauto |].
    intros r Hlk. by rewrite <- (Hfound r Hlk).
  - left. rewrite Hst. split; [done |]. split; [simpl; lia |].
    intros r Hlk. rewrite <- (Hfound r Hlk). eauto.
Qed.

(** Steps that are neither a session reset, nor a call for [pid], nor
    an eviction of [pid] leave the record of [pid] alone. *)
Lemma step_lookup_kept pid s ev :
  session_event ev = false ->
  evicts pid s ev = false ->
  match ev with
  | ProcessPerson pid' _ _ _ _ => pid' <> pid
  | _ => True
  end ->
  people (handler (step s ev)) !! pid = people (handler s) !! pid.
Proof.
  intros Hev Hevict Hother. destruct ev; try discriminate Hev.
  - done.
  - simpl. by apply process_person_lookup_other.
  - unfold evicts in Hevict.
    destruct (session_cleanup_lookup (handler s) current_time pid)
      as [He | He]; [exact He |].
    change (people (handler (step s (Cleanup current_time))) !! pid = None)
      in He.
    rewrite He in Hevict |- *.
    destruct (people (handler s) !! pid) as [r |]; [| done].
    rewrite bool_decide_eq_true_2 in Hevict by (by eexists).
    rewrite bool_decide_eq_true_2 in Hevict by done. discriminate Hevict.
  - destruct (step_worker_poll_handler s current_time)
      as [Hh | (item & rest & _ & _ & Hh)]; by rewrite Hh.
  - destruct (step_worker_played_handler s r current_time) as [Hh | Hh];
      by rewrite Hh.
Qed.

Lemma eviction_count_cons_0 pid s ev evs :
  eviction_count pid s (ev :: evs) = 0%nat ->
  evicts pid s ev = false /\ eviction_count pid (step s ev) evs = 0%nat.
Proof. simpl. destruct (evicts pid s ev); simpl; [lia | auto]. Qed.

Lemma announcement_times_other pid s ev evs :
  match ev with
  | ProcessPerson pid' _ _ _ _ => pid' <> pid
  | _ => True
  end ->
  announcement_times pid s (ev :: evs)
  = announcement_times pid (step s ev) evs.
Proof.
  intros Hother. cbn [announcement_times]. destruct ev; try done.
  by rewrite bool_decide_eq_false_2.
Qed.

Lemma announcement_times_same pid s pname recognized marked now evs :
  let ev := ProcessPerson pid pname recognized marked now in
  announcement_times pid s (ev :: evs)
  = (if bool_decide
          (enqueued_by (handler s) pid pname recognized marked now ≠ [])
     then [now] else [])
    ++ announcement_times pid (step s ev) evs.
Proof. simpl. by rewrite bool_decide_eq_true_2. Qed.

Lemma spaced_per_person_after pid evs :
  forall s t0,
    in_session evs = true ->
    eviction_count pid s evs = 0%nat ->
    (exists r,
       people (handler s) !! pid = Some r
       /\ t0 + AUDIO_COOLDOWN_PER_PERSON <= audio_lock_until r) ->
    spaced_from AUDIO_COOLDOWN_PER_PERSON t0 (announcement_times pid s evs)
    = true.
Proof.
  induction evs as [| ev evs IH]; intros s t0 Hin Hev (r & Hlk & Hlock);
    [done |].
  simpl in Hin. apply andb_true_iff in Hin as [Hsess Hin].
  apply negb_true_iff in Hsess.
  apply eviction_count_cons_0 in Hev as [Hevict Hev].
  assert (Hother :
            match ev with
            | ProcessPerson pid' _ _ _ _ => pid' <> pid
            | _ => True
            end ->
            spaced_from AUDIO_COOLDOWN_PER_PERSON t0
              (announcement_times pid s (ev :: evs)) = true).
  { intros Hne. rewrite announcement_times_other by done.
    apply IH; [done | done |]. exists r.
    by rewrite step_lookup_kept. }
  destruct ev; try (by apply Hother).
  destruct (decide (pid0 = pid)) as [-> | Hne]; [| by apply Hother].
  clear Hother. rewrite announcement_times_same.
  destruct (process_person_effect pid s person_name is_recognized
              attendance_marked current_time)
    as [(-> & _ & Hkeep) | ((item & ->) & _ & (r1 & Hr1 & Hl1) & Hexp)].
  - rewrite bool_decide_eq_false_2 by (by intros []).
    destruct (Hkeep r Hlk) as (r' & Hr' & Hl').
    apply IH; [done | done |]. exists r'. split; [done | lia].
  - rewrite bool_decide_eq_true_2 by done.
    specialize (Hexp r Hlk). cbn [app spaced_from].
    apply andb_true_iff. split; [apply bool_decide_eq_true; lia |].
    apply IH; [done | done |]. exists r1. split; [done | lia].
Qed.

(** X11.  Within a session, and as long as the person's record is not
    evicted, two announcements enqueued for the same person are at
    least [AUDIO_COOLDOWN_PER_PERSON] apart on the clock of the calls
    that enqueued them, whatever else happens in between. *)
Theorem announcements_spaced_per_person pid (s : System) (evs : list Event) :
  in_session evs = true ->
  eviction_count pid s evs = 0%nat ->
  spaced AUDIO_COOLDOWN_PER_PERSON (announcement_times pid s evs) = true.
Proof.
  revert s. induction evs as [| ev evs IH]; intros s Hin Hev; [done |].
  pose proof Hin as Hin0.
  simpl in Hin. apply andb_true_iff in Hin as [Hsess Hin].
  apply eviction_count_cons_0 in Hev as [Hevict Hev].
  assert (Hother :
            match ev with
            | ProcessPerson pid' _ _ _ _ => pid' <> pid
            | _ => True
            end ->
            spaced AUDIO_COOLDOWN_PER_PERSON
              (announcement_times pid s (ev :: evs)) = true).
  { intros Hne. rewrite announcement_times_other by done. by apply IH. }
  destruct ev; try (by apply Hother).
  destruct (decide (pid0 = pid)) as [-> | Hne]; [| by apply Hother].
  clear Hother. rewrite announcement_times_same.
  destruct (process_person_effect pid s person_name is_recognized
              attendance_marked current_time)
    as [(-> & _ & _) | ((item & ->) & _ & (r1 & Hr1 & Hl1) & _)].
  - rewrite bool_decide_eq_false_2 by (by intros []). by apply IH.
  - rewrite bool_decide_eq_true_2 by done. cbn [app spaced].
    apply spaced_per_person_after; [done | done |].
    exists r1. split; [done | lia].
Qed.

Lemma announcements_spaced_per_person_witness :
  (in_session alice_again = true
   /\ eviction_count "001" session_started alice_again = 0%nat)
  /\ announcement_times "001" session_started alice_again = [0; 5000; 10000]
  /\ spaced AUDIO_COOLDOWN_PER_PERSON
       (announcement_times "001" session_started alice_again) = true.
Proof.
  split; [split; reflexivity |]. split; [reflexivity |].
  apply (announcements_spaced_per_person "001" session_started alice_again);
    reflexivity.
Defined.

Lemma announcement_rank_bound pid evs :
  forall s,
    in_session evs = true ->
    (length (announcement_times pid s evs) + rank_now pid s
     <= rank_now pid (run s evs) + 3 * eviction_count pid s evs)%nat.
Proof.
  induction evs as [| ev evs IH]; intros s Hin; [simpl; lia |].
  simpl in Hin. apply andb_true_iff in Hin as [Hsess Hin].
  apply negb_true_iff in Hsess.
  specialize (IH (step s ev) Hin).
  cbn [run fold_left eviction_count]. fold (run (step s ev) evs).
  assert (Hrank : (rank_now pid s <= 3)%nat).
  { unfold rank_now. destruct (people (handler s) !! pid) as [r |]; [| lia].
    destruct (state r); simpl; lia. }
  destruct (evicts pid s ev) eqn:Hevict.
  - destruct ev; try discriminate Hevict.
    rewrite announcement_times_other by done. lia.
  - assert (Hother :
              match ev with
              | ProcessPerson pid' _ _ _ _ => pid' <> pid
              | _ => True
              end ->
              (length (announcement_times pid s (ev :: evs)) + rank_now pid s
               <= rank_now pid (run (step s ev) evs)
                  + (0 + 3 * eviction_count pid (step s ev) evs))%nat).
    { intros Hne. rewrite announcement_times_other by done.
      assert (rank_now pid (step s ev) = rank_now pid s) as <-; [| lia].
      unfold rank_now. by rewrite step_lookup_kept. }
    assert (Hgoal :
              (length (announcement_times pid s (ev :: evs)) + rank_now pid s
               <= rank_now pid (run (step s ev) evs)
                  + (0 + 3 * eviction_count pid (step s ev) evs))%nat);
      [| lia].
    destruct ev; try (by apply Hother).
    destruct (decide (pid0 = pid)) as [-> | Hne]; [| by apply Hother].
    clear Hother. rewrite announcement_times_same.
    destruct (process_person_effect pid s person_name is_recognized
                attendance_marked current_time)
      as [(-> & Hle & _) | ((item & ->) & Hs & _)].
    + rewrite bool_decide_eq_false_2 by (by intros []).
      cbn [app length]. lia.
    + rewrite bool_decide_eq_true_2 by done. cbn [app length]. lia.
Qed.

(** X12.  Within a session a person gets at most three announcements
    for each record they have, one per state change: a call that
    enqueues advances the state by exactly one position.  So the number
    of items enqueued for a person is at most 3 plus 3 for each eviction
    of their record, however many frames show them. *)
Theorem at_most_three_announcements pid (s : System) (evs : list Event) :
  in_session evs = true ->
  (length (announcement_times pid s evs)
   <= 3 + 3 * eviction_count pid s evs)%nat.
Proof.
  intros Hin. pose proof (announcement_rank_bound pid evs s Hin).
  assert ((rank_now pid (run s evs) <= 3)%nat).
  { unfold rank_now.
    destruct (people (handler (run s evs)) !! pid) as [r |]; [| lia].
    destruct (state r); simpl; lia. }
  lia.
Qed.

Lemma at_most_three_announcements_witness :
  in_session alice_evicted = true
  /\ length (announcement_times "001" session_started alice_evicted) = 6%nat
  /\ eviction_count "001" session_started alice_evicted = 1%nat
  /\ (length (announcement_times "001" session_started alice_evicted)
      <= 3 + 3 * eviction_count "001" session_started alice_evicted)%nat.
Proof.
  split; [reflexivity |]. split; [reflexivity |]. split; [reflexivity |].
  apply (at_most_three_announcements "001" session_started alice_evicted).
  reflexivity.
Defined.

(** ** What the inputs must bring for a state to be reached *)

(** X13.  Nobody is MARKED or IGNORED without the attendance system
    saying so: along any run in which no call for a person carries
    [attendance_marked = True], a person who has no record, or one that
    is NEW or MARKING, ends with no record or with one that is NEW or
    MARKING. *)
Theorem marking_waits_for_attendance pid (s : System) (evs : list Event) :
  never_marked pid evs = true ->
  (rank_now pid s <= 1)%nat ->
  (rank_now pid (run s evs) <= 1)%nat.
Proof.
  revert s. induction evs as [| ev evs IH]; intros s Hnm Hlow; [exact Hlow |].
  simpl in Hnm. apply andb_true_iff in Hnm as [Hev Hnm].
  cbn [run fold_left]. fold (run (step s ev) evs). apply IH; [done |].
  unfold rank_now.
  destruct (people (handler (step s ev)) !! pid) as [r' |] eqn:Hlk; [| lia].
  destruct (step_lookup_Some s ev pid r' Hlk)
    as [Hold | (pname & marked & now & l & -> & _ & Hout)].
  - unfold rank_now in Hlow. by rewrite Hold in Hlow.
  - rewrite (rank_now_fetched s pid pname now) in Hlow.
    rewrite bool_decide_eq_true_2 in Hev by done. simpl in Hev.
    apply negb_true_iff in Hev. subst marked.
    destruct Hout as [| | ? Hst | ? Hst | ? Hst | ? Hst];
      simpl; try done; try lia.
    all: rewrite Hst in Hlow; simpl in Hlow; lia.
Qed.

Lemma marking_waits_for_attendance_witness :
  (never_marked "001"
     [ProcessPerson "001" "Alice" true false 0;
      ProcessPerson "002" "Bob" true true 100;
      ProcessPerson "001" "Alice" true false 6000;
      ProcessPerson "001" "Alice" true false 20000] = true
   /\ (rank_now "001" session_started <= 1)%nat)
  /\ (rank_now "001"
        (run session_started
           [ProcessPerson "001" "Alice" true false 0;
            ProcessPerson "002" "Bob" true true 100;
            ProcessPerson "001" "Alice" true false 6000;
            ProcessPerson "001" "Alice" true false 20000]) <= 1)%nat.
Proof.
  split; [split; [reflexivity | vm_compute; lia] |].
  apply marking_waits_for_attendance; [reflexivity | vm_compute; lia].
Defined.

(** X14.  A person who stays in view is never told "already marked":
    within an active session, if every recognized sighting of the person
    comes at most [REAPPEAR_THRESHOLD] after the one before it, their
    state never becomes IGNORED, whatever [attendance_marked] says and
    whatever the lock does. *)
Theorem in_view_never_ignored pid (s : System) last (evs : list Event) :
  in_session evs = true ->
  session_active (handler s) = true ->
  stays_in_view pid last evs = true ->
  match people (handler s) !! pid with
  | Some r => state r <> IGNORED /\ last_seen_time r = last
  | None => True
  end ->
  get_person_state (handler (run s evs)) pid <> Some IGNORED.
Proof.
  revert s last. induction evs as [| ev evs IH];
    intros s last Hin Ha Hview Hinv.
  { unfold get_person_state. simpl.
    destruct (people (handler s) !! pid) as [r |]; [| done].
    intros [= Hst]. by destruct Hinv. }
  simpl in Hin. apply andb_true_iff in Hin as [Hsess Hin].
  apply negb_true_iff in Hsess.
  cbn [run fold_left]. fold (run (step s ev) evs).
  assert (Ha' : session_active (handler (step s ev)) = true).
  { destruct ev; try discriminate Hsess; simpl; try done.
    - by destruct (process_person_frame (handler s) pid0 person_name
                     is_recognized attendance_marked current_time)
        as (_ & -> & _).
    - by destruct (cleanup_fields (handler s) current_time) as (-> & _).
    - destruct (step_worker_poll_handler s current_time)
        as [Hh | (item & rest & _ & _ & Hh)];
        simpl in Hh; by rewrite Hh.
    - destruct (step_worker_played_handler s r current_time) as [Hh | Hh];
        simpl in Hh; by rewrite Hh. }
  assert (Hkeep :
            forall last',
              stays_in_view pid last' evs = true ->
              last' = last ->
              (people (handler (step s ev)) !! pid
               = people (handler s) !! pid
               \/ people (handler (step s ev)) !! pid = None) ->
              get_person_state (handler (run (step s ev) evs)) pid
              <> Some IGNORED).
  { intros last' Hview' -> Hlk. apply (IH _ last); try done.
    destruct Hlk as [-> | ->]; done. }
  destruct ev; try discriminate Hsess.
  - by apply (Hkeep last); [| | left].
  - destruct (decide (pid0 = pid)) as [-> | Hne].
    2: { apply (Hkeep last); [| done |].
         - simpl in Hview. destruct is_recognized; [| done].
           by rewrite bool_decide_eq_false_2 in Hview.
         - left. simpl. by apply process_person_lookup_other. }
    destruct is_recognized.
    2: { apply (Hkeep last); [done | done |]. left. simpl.
         by rewrite process_person_unrecognized. }
    simpl in Hview. rewrite bool_decide_eq_true_2 in Hview by done.
    apply andb_true_iff in Hview as [Hgap Hview].
    apply bool_decide_eq_true in Hgap.
    destruct (process_person_active (handler s) pid person_name
                attendance_marked current_time Ha)
      as (r1 & l & Heq & Hout).
    apply (IH _ current_time); try done.
    simpl. rewrite Heq. simpl. rewrite lookup_insert_eq.
    destruct (people (handler s) !! pid) as [r |] eqn:Hlk.
    + rewrite (fetched_person_found _ _ _ _ _ Hlk) in Hout.
      destruct Hinv as [Hst Hseen]. subst last.
      destruct Hout as [| | ? Hst' | ? Hst' | ? Hst' | ? Hst'];
        simpl; try done; lia.
    + rewrite (fetched_person_fresh _ _ _ _ Hlk) in Hout.
      inversion Hout; subst; simpl in *; done.
  - apply (Hkeep last); [done | done |].
    apply session_cleanup_lookup.
  - apply (Hkeep last); [done | done |]. left.
    destruct (step_worker_poll_handler s current_time)
      as [Hh | (item & rest & _ & _ & Hh)]; by rewrite Hh.
  - apply (Hkeep last); [done | done |]. left.
    destruct (step_worker_played_handler s r current_time) as [Hh | Hh];
      by rewrite Hh.
Qed.

Lemma in_view_never_ignored_witness :
  (in_session
     [ProcessPerson "001" "Alice" true true 6000;
      ProcessPerson "001" "Alice" true true 8000;
      Cleanup 9000;
      ProcessPerson "001" "Alice" true true 10000;
      ProcessPerson "001" "Alice" true true 12000] = true
   /\ session_active alice_marking = true
   /\ stays_in_view "001" 5000
        [ProcessPerson "001" "Alice" true true 6000;
         ProcessPerson "001" "Alice" true true 8000;
         Cleanup 9000;
         ProcessPerson "001" "Alice" true true 10000;
         ProcessPerson "001" "Alice" true true 12000] = true)
  /\ get_person_state
       (handler
          (run (mkSystem
                  (process_person alice_marking "001" "Alice" true true 5000)
                  Polling)
             [ProcessPerson "001" "Alice" true true 6000;
              ProcessPerson "001" "Alice" true true 8000;
              Cleanup 9000;
              ProcessPerson "001" "Alice" true true 10000;
              ProcessPerson "001" "Alice" true true 12000])) "001"
     <> Some IGNORED.
Proof.
  split; [repeat split; reflexivity |].
  apply (in_view_never_ignored "001" _ 5000); try reflexivity.
  vm_compute. split; [discriminate | reflexivity].
Defined.

(** ** Draining the queue *)

Lemma iteration_pops h audio_text queue_time rest t r t' evs :
  audio_thread_running h = true ->
  audio_queue h = (audio_text, queue_time) :: rest ->
  global_cooldown_until h <= t ->
  let h' := update_global_cooldown (set_audio_queue h rest) t' in
  run (mkSystem h Polling) (WorkerPoll t :: WorkerPlayed r t' :: evs)
  = run (mkSystem h' Polling) evs
  /\ played_texts (mkSystem h Polling)
       (WorkerPoll t :: WorkerPlayed r t' :: evs)
     = audio_text :: played_texts (mkSystem h' Polling) evs.
Proof.
  intros Hrun Hq Hcd h'.
  assert (Hpoll : step (mkSystem h Polling) (WorkerPoll t)
                  = mkSystem (set_audio_queue h rest) (Playing audio_text)).
  { simpl. unfold poll_audio_queue. rewrite Hq.
    by rewrite bool_decide_eq_false_2 by lia. }
  assert (Hplayed : step (mkSystem (set_audio_queue h rest)
                            (Playing audio_text)) (WorkerPlayed r t')
                    = mkSystem h' Polling)
    by (destruct r; simpl; unfold loop_test; simpl; by rewrite Hrun).
  split.
  - cbn [run fold_left]. by rewrite Hpoll, Hplayed.
  - cbn [played_texts]. rewrite Hpoll. cbn [worker played_texts].
    by rewrite Hplayed.
Qed.

(** X15.  Enough iterations empty the queue: while the playback thread
    runs, a series of iterations, each started at or after the end of
    the cooldown the one before it set, plays one item per iteration,
    from the head of the queue and in order, whether the backend returns
    or raises; after as many iterations as there were items the queue
    is empty. *)
Theorem scheduled_iterations_drain h
    (schedule : list (Z * BackendOutcome * Z)) :
  audio_thread_running h = true ->
  schedule_ready (global_cooldown_until h) schedule = true ->
  (length schedule <= length (audio_queue h))%nat ->
  let s' := run (mkSystem h Polling) (schedule_events schedule) in
  played_texts (mkSystem h Polling) (schedule_events schedule)
  = take (length schedule) (audio_queue h).*1
  /\ audio_queue (handler s') = drop (length schedule) (audio_queue h)
  /\ worker s' = Polling.
Proof.
  revert h. induction schedule as [| [[t r] t'] schedule IH];
    intros h Hrun Hready Hlen; [done |].
  simpl in Hready. apply andb_true_iff in Hready as [Hcd Hready].
  apply bool_decide_eq_true in Hcd.
  destruct (audio_queue h) as [| [text qt] rest] eqn:Hq;
    [simpl in Hlen; lia |].
  simpl in Hlen.
  destruct (iteration_pops h text qt rest t r t' (schedule_events schedule)
              Hrun Hq Hcd) as [Hrn Hpl].
  cbn [schedule_events flat_map app fst snd] in *.
  fold (schedule_events schedule) in *.
  rewrite Hrn, Hpl.
  destruct (IH (update_global_cooldown (set_audio_queue h rest) t'))
    as (Hp & Hd & Hw); [done | done | simpl; lia |].
  split; [| split; [exact Hd | exact Hw]].
  rewrite Hp. reflexivity.
Qed.

Lemma scheduled_iterations_drain_witness :
  (audio_thread_running two_waiting = true
   /\ schedule_ready (global_cooldown_until two_waiting)
        [(150, Returned, 900); (2900, Raised "no device", 3000)] = true
   /\ (2 <= length (audio_queue two_waiting))%nat)
  /\ audio_queue
       (handler
          (run (mkSystem two_waiting Polling)
             (schedule_events
                [(150, Returned, 900); (2900, Raised "no device", 3000)])))
     = [].
Proof.
  split; [split; [reflexivity | split; [reflexivity | vm_compute; lia]] |].
  destruct (scheduled_iterations_drain two_waiting
              [(150, Returned, 900); (2900, Raised "no device", 3000)]
              eq_refl eq_refl)
    as (_ & -> & _); [vm_compute; lia | reflexivity].
Defined.
